(** * vmix_player: frame-accurate seeking and playback bookkeeping

    A shallow embedding of [src/vmix_player.cpp].  The two libavutil
    helpers it does its time-base arithmetic with, [av_inv_q] and
    [av_rescale_q], are not part of the program's sources; they are
    embedded here after libavutil's [rational.h] and [mathematics.c].
    Machine integers are values of [Z]; where C++ would wrap, the
    wrap-around is written out with [u64] and [s64]. *)

From Stdlib Require Import ZArith List Bool Lia.
Import ListNotations.
Local Open Scope Z_scope.

(** ** Machine integers *)

Definition INT64_MIN : Z := - 2 ^ 63.
Definition INT64_MAX : Z := 2 ^ 63 - 1.
Definition INT_MAX : Z := 2 ^ 31 - 1.
Definition INT32_MAX : Z := 2 ^ 31 - 1.

(** [AV_NOPTS_VALUE] is [((int64_t)UINT64_C(0x8000000000000000))]. *)
Definition AV_NOPTS_VALUE : Z := INT64_MIN.

(** Reduction to [uint64_t] and to [int64_t] (two's complement). *)
Definition u64 (x : Z) : Z := x mod 2 ^ 64.
Definition s64 (x : Z) : Z := (x + 2 ^ 63) mod 2 ^ 64 - 2 ^ 63.

(** ** libavutil: rationals and rescaling *)

Record AVRational : Type := mkRational { num : Z; den : Z }.

(** [av_inv_q]: swap numerator and denominator. *)
Definition av_inv_q (q : AVRational) : AVRational :=
  {| num := den q; den := num q |}.

(** [enum AVRounding]. *)
Definition AV_ROUND_ZERO : Z := 0.
Definition AV_ROUND_INF : Z := 1.
Definition AV_ROUND_DOWN : Z := 2.
Definition AV_ROUND_UP : Z := 3.
Definition AV_ROUND_NEAR_INF : Z := 5.
Definition AV_ROUND_PASS_MINMAX : Z := 8192.

(** The 64 iterations of the long division at the end of [av_rescale_rnd]:
    [n] counts the bits of [a0] still to be shifted in, so the iteration
    with [n = S i] is the source's iteration [i].  It returns [t1]. *)
Fixpoint rescale_div_loop (n : nat) (a0 a1 t1 c : Z) : Z :=
  match n with
  | O => t1
  | S i =>
      let a1 := u64 (a1 + u64 (a1 + Z.land (Z.shiftr a0 (Z.of_nat i)) 1)) in
      let t1 := u64 (t1 + t1) in
      if c <=? a1
      then rescale_div_loop i a0 (u64 (a1 - c)) (u64 (t1 + 1)) c
      else rescale_div_loop i a0 a1 t1 c
  end.

(** The 128-bit branch of [av_rescale_rnd]: [(a * b + r) / c] by 32-bit
    limbs and shift-subtract division, all in [uint64_t]. *)
Definition rescale_wide (a b c r : Z) : Z :=
  let a0 := Z.land a 4294967295 in
  let a1 := Z.shiftr a 32 in
  let b0 := Z.land b 4294967295 in
  let b1 := Z.shiftr b 32 in
  let t1 := u64 (u64 (a0 * b1) + u64 (a1 * b0)) in
  let t1a := u64 (Z.shiftl t1 32) in
  let a0 := u64 (u64 (a0 * b0) + t1a) in
  let a1 := u64 (u64 (u64 (a1 * b1) + Z.shiftr t1 32)
                 + (if a0 <? t1a then 1 else 0)) in
  let a0 := u64 (a0 + r) in
  let a1 := u64 (a1 + (if a0 <? r then 1 else 0)) in
  let t1 := rescale_div_loop 64 a0 a1 t1 c in
  if t1 >? INT64_MAX then INT64_MIN else t1.

(** The check on the rounding mode:
    [(unsigned)(rnd & ~PASS_MINMAX) <= 5 && (rnd & ~PASS_MINMAX) != 4]. *)
Definition rnd_valid (rnd : Z) : bool :=
  let m := Z.land rnd (Z.lnot AV_ROUND_PASS_MINMAX) in
  (0 <=? m) && (m <=? 5) && negb (m =? 4).

(** The body of [av_rescale_rnd], with its one recursive call (made for a
    negative [a], on a positive argument) going through [self]. *)
Definition av_rescale_rnd_body (self : Z -> Z -> Z -> Z -> Z)
    (a b c rnd : Z) : Z :=
  if (c <=? 0) || (b <? 0) || negb (rnd_valid rnd) then INT64_MIN
  else
    let pass := negb (Z.land rnd AV_ROUND_PASS_MINMAX =? 0) in
    if pass && ((a =? INT64_MIN) || (a =? INT64_MAX)) then a
    else
      let rnd := if pass then rnd - AV_ROUND_PASS_MINMAX else rnd in
      if a <? 0 then
        s64 (- u64 (self (- Z.max a (- INT64_MAX)) b c
                      (Z.lxor rnd (Z.land (Z.shiftr rnd 1) 1))))
      else
        let r := if rnd =? AV_ROUND_NEAR_INF then Z.quot c 2
                 else if negb (Z.land rnd 1 =? 0) then c - 1
                 else 0 in
        if (b <=? INT_MAX) && (c <=? INT_MAX) then
          if a <=? INT_MAX then Z.quot (a * b + r) c
          else
            let ad := Z.quot a c in
            let a2 := Z.quot (Z.rem a c * b + r) c in
            if (ad >=? INT32_MAX) && negb (b =? 0)
               && (ad >? Z.quot (INT64_MAX - a2) b)
            then INT64_MIN
            else s64 (ad * b + a2)
        else rescale_wide a b c r.

(** [av_rescale_rnd]: the recursion is at most one call deep, since the
    argument of the recursive call is positive. *)
Definition av_rescale_rnd (a b c rnd : Z) : Z :=
  av_rescale_rnd_body
    (av_rescale_rnd_body (fun _ _ _ _ => INT64_MIN)) a b c rnd.

(** [av_rescale_q_rnd]: both products are of two [int]s widened to
    [int64_t] and cannot overflow. *)
Definition av_rescale_q_rnd (a : Z) (bq cq : AVRational) (rnd : Z) : Z :=
  let b := num bq * den cq in
  let c := num cq * den bq in
  av_rescale_rnd a b c rnd.

Definition av_rescale_q (a : Z) (bq cq : AVRational) : Z :=
  av_rescale_q_rnd a bq cq AV_ROUND_NEAR_INF.

(** ** Streams and the time-base conversions (source lines 75-87) *)

Record AVStream : Type := mkStream {
  avg_frame_rate : AVRational;
  r_frame_rate : AVRational;
  time_base : AVRational
}.

Definition frame_number_to_stream_ts (frame_number : Z) (st : AVStream) : Z :=
  let afr := if negb (num (avg_frame_rate st) =? 0)
             then avg_frame_rate st else r_frame_rate st in
  let afr := if (num afr =? 0) || (den afr =? 0)
             then {| num := 25; den := 1 |} else afr in
  let frame_time := av_inv_q afr in
  av_rescale_q frame_number frame_time (time_base st).

Definition pts_to_frame_number (pts : Z) (st : AVStream) : Z :=
  let afr := if negb (num (avg_frame_rate st) =? 0)
             then avg_frame_rate st else r_frame_rate st in
  let afr := if (num afr =? 0) || (den afr =? 0)
             then {| num := 25; den := 1 |} else afr in
  let frame_time := av_inv_q afr in
  av_rescale_q pts (time_base st) frame_time.

(** ** Frames, packets and the player (source lines 20-38)

    What libavformat and libavcodec answer is an input of the model: a
    call that reads from the container is given the list of demuxer and
    decoder responses it will see, in order, and what the one
    [av_frame_clone] it may reach returns.  The scratch packet and frame
    ([av_packet_alloc], [av_frame_alloc]) are taken to be there: the
    program (line 111) and the library dereference them. *)

Record AVFrame : Type := mkFrame {
  width : Z;
  height : Z;
  format : Z;
  best_effort_timestamp : Z;
  pts : Z;
  data : list Z
}.

(** One answer of [avcodec_receive_frame]. *)
Inductive Received : Type :=
  | RecvFrame (frame : AVFrame)   (* 0: a frame was produced *)
  | RecvAgain                     (* AVERROR(EAGAIN) *)
  | RecvEof                       (* AVERROR_EOF *)
  | RecvError (err : Z).          (* any other negative code *)

(** One successful [av_read_frame]: the packet's stream, the return code of
    [avcodec_send_packet] for it, and what [avcodec_receive_frame] answers
    afterwards.  A decoder that has nothing more to give answers EAGAIN, so
    an exhausted [receives] list reads as [RecvAgain].  The end of the list
    of reads is [av_read_frame] returning a negative code. *)
Record DemuxRead : Type := mkRead {
  stream_index : Z;
  send_ret : Z;
  receives : list Received
}.

(** [SwsContext], as far as the program can tell two of them apart: the
    arguments it was obtained with. *)
Record SwsContext : Type := mkSws {
  srcW : Z; srcH : Z; srcFormat : Z;
  dstW : Z; dstH : Z; dstFormat : Z;
  sws_flags : Z
}.

Definition AV_PIX_FMT_NONE : Z := -1.
Definition AV_PIX_FMT_BGR24 : Z := 3.
Definition SWS_BILINEAR : Z := 2.
Definition AVMEDIA_TYPE_VIDEO : Z := 0.

(** [struct FFPlayer].  The two library handles are only ever tested for
    null, so they are booleans here; [fps] (a [double]) is left out. *)
Record FFPlayer : Type := mkPlayer {
  fmt_ctx : bool;
  dec_ctx : bool;
  video_stream_idx : Z;
  video_stream : option AVStream;
  sws_ctx : option SwsContext;
  sws_src_w : Z;
  sws_src_h : Z;
  sws_src_fmt : Z;
  player_avg_frame_rate : AVRational;
  current_target_ts : Z;
  last_shown_pts : Z
}.

(** The default member initialisers of [FFPlayer]. *)
Definition FFPlayer_init : FFPlayer :=
  {| fmt_ctx := false; dec_ctx := false; video_stream_idx := -1;
     video_stream := None; sws_ctx := None;
     sws_src_w := -1; sws_src_h := -1; sws_src_fmt := AV_PIX_FMT_NONE;
     player_avg_frame_rate := {| num := 0; den := 1 |};
     current_target_ts := 0; last_shown_pts := AV_NOPTS_VALUE |}.

Definition set_last_shown_pts (p : FFPlayer) (v : Z) : FFPlayer :=
  {| fmt_ctx := fmt_ctx p; dec_ctx := dec_ctx p;
     video_stream_idx := video_stream_idx p; video_stream := video_stream p;
     sws_ctx := sws_ctx p; sws_src_w := sws_src_w p; sws_src_h := sws_src_h p;
     sws_src_fmt := sws_src_fmt p;
     player_avg_frame_rate := player_avg_frame_rate p;
     current_target_ts := current_target_ts p; last_shown_pts := v |}.

Definition set_sws (p : FFPlayer) (ctx : option SwsContext) (w h fmt : Z)
    : FFPlayer :=
  {| fmt_ctx := fmt_ctx p; dec_ctx := dec_ctx p;
     video_stream_idx := video_stream_idx p; video_stream := video_stream p;
     sws_ctx := ctx; sws_src_w := w; sws_src_h := h; sws_src_fmt := fmt;
     player_avg_frame_rate := player_avg_frame_rate p;
     current_target_ts := current_target_ts p;
     last_shown_pts := last_shown_pts p |}.

(** ** ColorConverter: [avframe_to_cvmat] (source lines 46-73) *)

(** [sws_getContext] either builds a context for its arguments or returns
    null; which of the two is the library's answer [ok]. *)
Definition sws_getContext (ok : bool)
    (sw sh sf dw dh df flags : Z) : option SwsContext :=
  if ok then Some (mkSws sw sh sf dw dh df flags) else None.

(** The image handed back: its geometry, and the context and frame
    [sws_scale] was run on (the pixels themselves are the library's). *)
Record Mat : Type := mkMat {
  rows : Z;
  cols : Z;
  scaled_with : SwsContext;
  scaled_from : AVFrame
}.

(** The guard of line 52. *)
Definition sws_stale (frame : AVFrame) (p : FFPlayer) : bool :=
  match sws_ctx p with None => true | Some _ => false end
  || negb (sws_src_w p =? width frame)
  || negb (sws_src_h p =? height frame)
  || negb (sws_src_fmt p =? format frame).

(** The calls [avframe_to_cvmat] makes to libswscale, with the context
    [sws_getContext] handed back. *)
Inductive SwsCall : Type :=
  | CallFreeContext (ctx : SwsContext)
  | CallGetContext (sw sh sf : Z) (result : option SwsContext)
  | CallScale (ctx : SwsContext) (frame : AVFrame).

(** Lines 52-61: the player after the conditional rebuild, and the calls
    made on the way ([sws_freeContext] when there was a context, then
    [sws_getContext]). *)
Definition sws_refresh_traced (frame : AVFrame) (p : FFPlayer) (ok : bool)
    : FFPlayer * list SwsCall :=
  if sws_stale frame p
  then
    let freed := match sws_ctx p with
                 | Some old => [CallFreeContext old]
                 | None => []
                 end in
    let ctx := sws_getContext ok (width frame) (height frame) (format frame)
                 (width frame) (height frame) AV_PIX_FMT_BGR24 SWS_BILINEAR in
    (set_sws p ctx (width frame) (height frame) (format frame),
     freed ++ [CallGetContext (width frame) (height frame) (format frame)
                 ctx])
  else (p, []).

(** [avframe_to_cvmat] with the libswscale calls it makes.  [sws_scale]
    dereferences the context, so a null context ends the run: no image is
    returned ([None]). *)
Definition avframe_to_cvmat_traced (frame : AVFrame) (p : FFPlayer)
    (ok : bool) : option Mat * FFPlayer * list SwsCall :=
  let '(p, calls) := sws_refresh_traced frame p ok in
  match sws_ctx p with
  | Some ctx =>
      (Some (mkMat (height frame) (width frame) ctx frame), p,
       calls ++ [CallScale ctx frame])
  | None => (None, p, calls)
  end.

(** What [avframe_to_cvmat] hands back and leaves in the player. *)
Definition avframe_to_cvmat (frame : AVFrame) (p : FFPlayer) (ok : bool)
    : option Mat * FFPlayer :=
  fst (avframe_to_cvmat_traced frame p ok).

(** The player lines 52-61 leave. *)
Definition sws_refresh (frame : AVFrame) (p : FFPlayer) (ok : bool)
    : FFPlayer :=
  fst (sws_refresh_traced frame p ok).

(** A run of [avframe_to_cvmat] over successive frames: for each call,
    the libswscale calls it made and the image it returned; [None] if a
    call met a null context. *)
Fixpoint convert_frames (p : FFPlayer) (calls : list (AVFrame * bool))
    : option (FFPlayer * list (list SwsCall * Mat)) :=
  match calls with
  | [] => Some (p, [])
  | (frame, ok) :: rest =>
      match avframe_to_cvmat_traced frame p ok with
      | (None, _, _) => None
      | (Some img, p', made) =>
          match convert_frames p' rest with
          | None => None
          | Some (q, out) => Some (q, (made, img) :: out)
          end
      end
  end.

(** ** SeekDecoder and SequentialDecoder (source lines 92-168) *)

(** Lines 123-124, repeated as lines 159-160: the timestamp a frame is
    compared and recorded under. *)
Definition effective_pts (p : FFPlayer) (frame : AVFrame) : Z :=
  let pts := if negb (best_effort_timestamp frame =? AV_NOPTS_VALUE)
             then best_effort_timestamp frame else pts frame in
  if pts =? AV_NOPTS_VALUE then s64 (last_shown_pts p + 1) else pts.

(** The inner [while (ret >= 0)] of [seek_and_decode_frame]: the frame
    that stops the scan, with its timestamp. *)
Fixpoint seek_receive_loop (p : FFPlayer) (target_ts : Z)
    (rs : list Received) : option (AVFrame * Z) :=
  match rs with
  | RecvFrame frame :: rest =>
      let pts := effective_pts p frame in
      if pts >=? target_ts then Some (frame, pts)
      else seek_receive_loop p target_ts rest
  | _ => None
  end.

(** [av_frame_clone]: a copy of the frame, or null when [ok] is false. *)
Definition av_frame_clone (ok : bool) (frame : AVFrame) : option AVFrame :=
  if ok then Some frame else None.

(** The outer [while (!got)] of [seek_and_decode_frame].  On the frame
    that stops the scan, lines 126-128 take the clone, whatever it is, as
    the result and write [last_shown_pts]. *)
Fixpoint seek_read_loop (p : FFPlayer) (target_ts : Z)
    (input : list DemuxRead) (clone_ok : bool) : option AVFrame * FFPlayer :=
  match input with
  | [] => (None, p)
  | packet :: rest =>
      if negb (stream_index packet =? video_stream_idx p)
      then seek_read_loop p target_ts rest clone_ok
      else if send_ret packet <? 0
      then seek_read_loop p target_ts rest clone_ok
      else
        match seek_receive_loop p target_ts (receives packet) with
        | Some (frame, pts) =>
            (av_frame_clone clone_ok frame, set_last_shown_pts p pts)
        | None => seek_read_loop p target_ts rest clone_ok
        end
  end.

(** [seek_and_decode_frame]; [seek_ret] is what [av_seek_frame] returns,
    [input] what the container and decoder yield after it, and [clone_ok]
    whether [av_frame_clone], if reached, returns a copy. *)
Definition seek_and_decode_frame (p : FFPlayer) (target_frame_number : Z)
    (seek_ret : Z) (input : list DemuxRead) (clone_ok : bool)
    : option AVFrame * FFPlayer :=
  match video_stream p with
  | None => (None, p)
  | Some st =>
      if negb (fmt_ctx p) || negb (dec_ctx p) then (None, p)
      else
        let target_ts := frame_number_to_stream_ts target_frame_number st in
        if seek_ret <? 0 then (None, p)
        else seek_read_loop p target_ts input clone_ok
  end.

(** The inner loop of [decode_next_frame]: the first answer decides. *)
Definition next_receive_loop (p : FFPlayer) (rs : list Received)
    : option (AVFrame * Z) :=
  match rs with
  | RecvFrame frame :: _ => Some (frame, effective_pts p frame)
  | _ => None
  end.

(** The [while (true)] of [decode_next_frame].  Lines 161-164 take the
    clone, whatever it is, as the result and write [last_shown_pts]. *)
Fixpoint next_read_loop (p : FFPlayer) (input : list DemuxRead)
    (clone_ok : bool) : option AVFrame * FFPlayer :=
  match input with
  | [] => (None, p)
  | packet :: rest =>
      if negb (stream_index packet =? video_stream_idx p)
      then next_read_loop p rest clone_ok
      else if send_ret packet <? 0 then next_read_loop p rest clone_ok
      else
        match next_receive_loop p (receives packet) with
        | Some (frame, pts) =>
            (av_frame_clone clone_ok frame, set_last_shown_pts p pts)
        | None => next_read_loop p rest clone_ok
        end
  end.

Definition decode_next_frame (p : FFPlayer) (input : list DemuxRead)
    (clone_ok : bool) : option AVFrame * FFPlayer :=
  if negb (fmt_ctx p) || negb (dec_ctx p) then (None, p)
  else next_read_loop p input clone_ok.

(** ** PlaybackController: [main] (source lines 170-276) *)

(** One entry of [fmt_ctx->streams]. *)
Record StreamEntry : Type := mkEntry {
  codec_type : Z;
  entry_stream : AVStream
}.

(** The selection loop of lines 187-193, started at index [i]. *)
Fixpoint find_video_stream (i : Z) (streams : list StreamEntry)
    : option (Z * AVStream) :=
  match streams with
  | [] => None
  | e :: rest =>
      if codec_type e =? AVMEDIA_TYPE_VIDEO then Some (i, entry_stream e)
      else find_video_stream (i + 1) rest
  end.

(** What the libraries answer while the session is opened and the first
    frame is fetched. *)
Record OpenEnv : Type := mkOpenEnv {
  argc : Z;
  open_input_ret : Z;
  find_stream_info_ret : Z;
  streams : list StreamEntry;
  decoder_found : bool;
  context_allocated : bool;
  parameters_to_context_ret : Z;
  open2_ret : Z;
  first_seek_ret : Z;
  first_input : list DemuxRead;
  first_clone_ok : bool;
  first_sws_ok : bool
}.

(** What the libraries answer during one iteration of the command loop:
    the key from [cv::waitKey], and the answers to the one decode and the
    one conversion the iteration may make. *)
Record Event : Type := mkEvent {
  key : Z;
  seek_ret : Z;
  input : list DemuxRead;
  clone_ok : bool;
  sws_ok : bool
}.

(** The locals of [main] that live across iterations, and the images
    passed to [cv::imshow] so far. *)
Record AppState : Type := mkApp {
  player : FFPlayer;
  current_frame : Z;
  playing : bool;
  should_quit : bool;
  shown : list Mat
}.

Inductive Startup : Type :=
  | Started (s : AppState)
  | Exited (code : Z)
  | Crashed.

(** The player once the session is open and line 214 has run: handles
    and stream set, the rate of lines 209-211 stored, no conversion context
    yet, no frame shown yet. *)
Definition session_player (idx : Z) (st : AVStream) : FFPlayer :=
  let afr := if negb (num (avg_frame_rate st) =? 0)
             then avg_frame_rate st else r_frame_rate st in
  let afr := if (num afr =? 0) || (den afr =? 0)
             then {| num := 25; den := 1 |} else afr in
  {| fmt_ctx := true; dec_ctx := true;
     video_stream_idx := idx; video_stream := Some st;
     sws_ctx := None; sws_src_w := -1; sws_src_h := -1;
     sws_src_fmt := AV_PIX_FMT_NONE;
     player_avg_frame_rate := afr;
     current_target_ts := 0;
     last_shown_pts := AV_NOPTS_VALUE |}.

(** Lines 170-228 of [main]: up to the first frame on screen. *)
Definition main_open (env : OpenEnv) : Startup :=
  if argc env <? 2 then Exited (-1)
  else if open_input_ret env <? 0 then Exited (-1)
  else if find_stream_info_ret env <? 0 then Exited (-1)
  else
    match find_video_stream 0 (streams env) with
    | None => Exited (-1)
    | Some (idx, st) =>
        if negb (decoder_found env) then Exited (-1)
        else if negb (context_allocated env) then Exited (-1)
        else if parameters_to_context_ret env <? 0 then Exited (-1)
        else if open2_ret env <? 0 then Exited (-1)
        else
          let player := session_player idx st in
          let current_frame := 0 in
          match seek_and_decode_frame player current_frame
                  (first_seek_ret env) (first_input env)
                  (first_clone_ok env) with
          | (None, _) => Exited (-1)
          | (Some frame, player) =>
              match avframe_to_cvmat frame player (first_sws_ok env) with
              | (None, _) => Crashed
              | (Some img, player) =>
                  Started
                    {| player := player;
                       current_frame :=
                         pts_to_frame_number (last_shown_pts player) st;
                       playing := false;
                       should_quit := false;
                       shown := [img] |}
              end
          end
    end.

(** Showing a freshly decoded frame (lines 239-241, 253-255, 264-266):
    convert, recompute [current_frame], [imshow]. *)
Definition show_frame (s : AppState) (p : FFPlayer) (frame : AVFrame)
    (ok : bool) (playing' : bool) : option AppState :=
  match avframe_to_cvmat frame p ok with
  | (None, _) => None
  | (Some img, p) =>
      match video_stream p with
      | None => None
      | Some st =>
          Some {| player := p;
                  current_frame := pts_to_frame_number (last_shown_pts p) st;
                  playing := playing';
                  should_quit := should_quit s;
                  shown := shown s ++ [img] |}
      end
  end.

Definition with_player (s : AppState) (p : FFPlayer) (playing' : bool)
    : AppState :=
  {| player := p; current_frame := current_frame s; playing := playing';
     should_quit := should_quit s; shown := shown s |}.

(** One iteration of the [while (!should_quit)] loop, lines 231-271;
    [None] when the iteration dereferences a null pointer. *)
Definition loop_iteration (s : AppState) (ev : Event) : option AppState :=
  if (key ev =? -1) && playing s then
    match decode_next_frame (player s) (input ev) (clone_ok ev) with
    | (None, p) => Some (with_player s p false)
    | (Some nf, p) => show_frame s p nf (sws_ok ev) (playing s)
    end
  else
    let c := Z.land (key ev) 255 in
    if (key ev =? 27) || (c =? 113) then
      Some {| player := player s; current_frame := current_frame s;
              playing := playing s; should_quit := true; shown := shown s |}
    else if c =? 32 then
      Some (with_player s (player s) (negb (playing s)))
    else if (c =? 110) || (key ev =? 83) then
      let target := s64 (current_frame s + 1) in
      match seek_and_decode_frame (player s) target (seek_ret ev) (input ev)
              (clone_ok ev)
      with
      | (None, p) => Some (with_player s p false)
      | (Some nf, p) => show_frame s p nf (sws_ok ev) false
      end
    else if (c =? 98) || (key ev =? 81) then
      let target := if current_frame s >? 0 then current_frame s - 1 else 0 in
      match seek_and_decode_frame (player s) target (seek_ret ev) (input ev)
              (clone_ok ev)
      with
      | (None, p) => Some (with_player s p false)
      | (Some bf, p) => show_frame s p bf (sws_ok ev) false
      end
    else if c =? 115 then Some (with_player s (player s) true)
    else if c =? 112 then Some (with_player s (player s) false)
    else Some s.

(** The command loop over a list of events; it stops at [should_quit]. *)
Fixpoint run_loop (s : AppState) (evs : list Event) : option AppState :=
  match evs with
  | [] => Some s
  | ev :: rest =>
      if should_quit s then Some s
      else
        match loop_iteration s ev with
        | None => None
        | Some s' => run_loop s' rest
        end
  end.

(** States the command loop can be in: the one [main_open] starts it in,
    and those one more iteration leads to. *)
Inductive reachable : AppState -> Prop :=
  | reach_open : forall env s, main_open env = Started s -> reachable s
  | reach_step : forall s ev s',
      reachable s -> should_quit s = false ->
      loop_iteration s ev = Some s' -> reachable s'.

(** ** Notions the properties are stated with *)

(** The rate lines 76-77, 83-84 and 209-210 each compute. *)
Definition effective_rate (st : AVStream) : AVRational :=
  let afr := if negb (num (avg_frame_rate st) =? 0)
             then avg_frame_rate st else r_frame_rate st in
  if (num afr =? 0) || (den afr =? 0) then {| num := 25; den := 1 |} else afr.

Definition default_rate : AVRational := {| num := 25; den := 1 |}.

(** The order of fallbacks, case by case: a declared average rate with a
    zero numerator gives way to [r_frame_rate], and that one to 25/1 when
    its numerator or denominator is zero; a declared average rate with a
    zero denominator gives way to 25/1 at once. *)
Definition rate_with_fallbacks (st : AVStream) : AVRational :=
  if num (avg_frame_rate st) =? 0 then
    if (num (r_frame_rate st) =? 0) || (den (r_frame_rate st) =? 0)
    then default_rate else r_frame_rate st
  else if den (avg_frame_rate st) =? 0 then default_rate
  else avg_frame_rate st.

(** The frames a drain of [rs] hands out before its first non-frame answer. *)
Fixpoint leading_frames (rs : list Received) : list AVFrame :=
  match rs with
  | RecvFrame frame :: rest => frame :: leading_frames rest
  | _ => []
  end.

(** The frames the decoder yields, in order, to a scan that reads all of
    [input]: those of the packets of the selected stream that the decoder
    accepted. *)
Definition yielded (p : FFPlayer) (input : list DemuxRead) : list AVFrame :=
  flat_map
    (fun packet =>
       if (stream_index packet =? video_stream_idx p)
          && negb (send_ret packet <? 0)
       then leading_frames (receives packet) else [])
    input.

(** First frame of a list at or after a timestamp. *)
Definition first_at_or_after (p : FFPlayer) (target_ts : Z)
    (frames : list AVFrame) : option AVFrame :=
  find (fun frame => effective_pts p frame >=? target_ts) frames.

Definition Triple : Type := (Z * Z * Z)%type.

Definition frame_triple (frame : AVFrame) : Triple :=
  (width frame, height frame, format frame).

Definition cached_triple (p : FFPlayer) : Triple :=
  (sws_src_w p, sws_src_h p, sws_src_fmt p).

Definition context_triple (ctx : SwsContext) : Triple :=
  (srcW ctx, srcH ctx, srcFormat ctx).

Definition triple_eqb (a b : Triple) : bool :=
  let '(aw, ah, af) := a in
  let '(bw, bh, bf) := b in
  (aw =? bw) && (ah =? bh) && (af =? bf).

(** For each triple of a sequence, whether it differs from the one before
    it; the first one differs from [prev = None]. *)
Fixpoint changes (prev : option Triple) (ts : list Triple) : list bool :=
  match ts with
  | [] => []
  | t :: rest =>
      match prev with
      | None => true
      | Some t' => negb (triple_eqb t' t)
      end :: changes (Some t) rest
  end.

(** Number of maximal blocks of equal consecutive triples. *)
Fixpoint distinct_runs (ts : list Triple) : nat :=
  match ts with
  | [] => O
  | t :: rest =>
      match rest with
      | [] => 1%nat
      | t' :: _ =>
          ((if triple_eqb t t' then 0 else 1) + distinct_runs rest)%nat
      end
  end.

(** What a decoder call can come back with: nothing and the player
    untouched, or the clone of a frame and [last_shown_pts] at that frame's
    timestamp. *)
Definition delivery (p : FFPlayer) (clone_ok : bool)
    (res : option AVFrame * FFPlayer) : Prop :=
  res = (None, p) \/
  exists frame,
    res = (av_frame_clone clone_ok frame,
           set_last_shown_pts p (effective_pts p frame)).


Definition is_get_context (c : SwsCall) : bool :=
  match c with CallGetContext _ _ _ _ => true | _ => false end.

(** Whether a call of [avframe_to_cvmat] obtained a context, read off the
    libswscale calls it made. *)
Definition rebuilt (made : list SwsCall) : bool :=
  existsb is_get_context made.

(** A [sws_scale] on a frame uses a context obtained for its triple. *)
Definition scale_matches (c : SwsCall) : Prop :=
  match c with
  | CallScale ctx frame =>
      (srcW ctx, srcH ctx, srcFormat ctx)
      = (width frame, height frame, format frame)
  | _ => True
  end.

(** Sample streams and frames. *)
Definition stream_25_90k : AVStream :=
  mkStream (mkRational 25 1) (mkRational 25 1) (mkRational 1 90000).

Definition stream_50_in_25ths : AVStream :=
  mkStream (mkRational 50 1) (mkRational 50 1) (mkRational 1 25).

Definition stream_r30 : AVStream :=
  mkStream (mkRational 0 1) (mkRational 30 1) (mkRational 1 90000).

Definition frame_at (t : Z) : AVFrame :=
  mkFrame 640 480 0 t t [].

Definition frame_untimed : AVFrame :=
  mkFrame 640 480 0 AV_NOPTS_VALUE AV_NOPTS_VALUE [].

(** An open session on stream 0 whose last shown timestamp is [last]. *)
Definition opened_player (st : AVStream) (last : Z) : FFPlayer :=
  set_last_shown_pts (session_player 0 st) last.

(** A scan for frame 5 that lands on a keyframe two frames early. *)
Definition scan_to_frame5 : list DemuxRead :=
  [ mkRead 1 0 [RecvFrame (frame_at 18000)];
    mkRead 0 0 [RecvFrame (frame_at 10800)];
    mkRead 0 (-1) [RecvFrame (frame_at 18000)];
    mkRead 0 0 [RecvFrame (frame_at 14400); RecvFrame (frame_at 18000);
                RecvFrame (frame_at 21600)] ].

(** A stream the conversions can rescale on: positive [int] numerators
    and denominators for the effective rate and the time base. *)
Definition usable_stream (st : AVStream) : Prop :=
  0 < num (effective_rate st) <= INT_MAX /\
  0 < den (effective_rate st) <= INT_MAX /\
  0 < num (time_base st) <= INT_MAX /\
  0 < den (time_base st) <= INT_MAX.

(** What the libraries answer when a file with an audio stream and a
    25 fps video stream is opened and the first decodable video frame is
    stamped [t]. *)
Definition open_env_first_at (t : Z) : OpenEnv :=
  {| argc := 2; open_input_ret := 0; find_stream_info_ret := 0;
     streams := [mkEntry 1 stream_r30; mkEntry 0 stream_25_90k];
     decoder_found := true; context_allocated := true;
     parameters_to_context_ret := 0; open2_ret := 0;
     first_seek_ret := 0;
     first_input := [mkRead 1 0 [RecvFrame (frame_at t)]];
     first_clone_ok := true;
     first_sws_ok := true |}.

(** The state [main] enters the loop in after [open_env_first_at 0]. *)
Definition sample_opened : AppState :=
  let ctx := mkSws 640 480 0 640 480 AV_PIX_FMT_BGR24 SWS_BILINEAR in
  {| player :=
       set_sws (set_last_shown_pts (session_player 1 stream_25_90k) 0)
         (Some ctx) 640 480 0;
     current_frame := 0; playing := false; should_quit := false;
     shown := [mkMat 480 640 ctx (frame_at 0)] |}.

(** The key 'n', answered by a scan that lands on frame 0 again. *)
Definition step_forward_event : Event :=
  {| key := 110; seek_ret := 0;
     input := [ mkRead 1 0 [RecvFrame (frame_at 0);
                            RecvFrame (frame_at 3600)] ];
     clone_ok := true;
     sws_ok := true |}.

(** The same key and scan, with [av_frame_clone] returning null. *)
Definition step_forward_no_clone : Event :=
  {| key := 110; seek_ret := 0; input := input step_forward_event;
     clone_ok := false; sws_ok := true |}.

Definition sample_stepped : AppState :=
  Eval vm_compute in
    match loop_iteration sample_opened step_forward_event with
    | Some s => s
    | None => sample_opened
    end.

(** When a context was built for the frame it is used on. *)
Definition built_for (img : Mat) : Prop :=
  context_triple (scaled_with img) = frame_triple (scaled_from img).

Definition frame_sized (w h : Z) (t : Z) : AVFrame :=
  mkFrame w h 0 t t [].

(** Three conversions: two frames of one geometry, then a smaller one. *)
Definition sample_calls : list (AVFrame * bool) :=
  [ (frame_sized 640 480 0, true); (frame_sized 640 480 3600, true);
    (frame_sized 320 240 7200, true) ].

Definition sample_converted : FFPlayer * list (list SwsCall * Mat) :=
  Eval vm_compute in
    match convert_frames FFPlayer_init sample_calls with
    | Some r => r
    | None => (FFPlayer_init, [])
    end.

(** ** Further notions *)

(** The packets a decode loop does not skip: those of the selected stream
    that [avcodec_send_packet] accepted. *)
Definition relevant_packets (p : FFPlayer) (input : list DemuxRead)
    : list DemuxRead :=
  filter (fun packet => (stream_index packet =? video_stream_idx p)
                        && negb (send_ret packet <? 0)) input.

(** Whether a frame carries a best-effort or an own timestamp. *)
Definition has_timestamp (frame : AVFrame) : bool :=
  negb (best_effort_timestamp frame =? AV_NOPTS_VALUE)
  || negb (pts frame =? AV_NOPTS_VALUE).

Definition with_key (ev : Event) (k : Z) : Event :=
  {| key := k; seek_ret := seek_ret ev; input := input ev;
     clone_ok := clone_ok ev; sws_ok := sws_ok ev |}.

(** The key codes [main] compares in full rather than by their low byte:
    the timeout of [cv::waitKey], ESC, and the two arrow codes. *)
Definition full_code_key (k : Z) : Prop :=
  k = -1 \/ k = 27 \/ k = 83 \/ k = 81.

(** The conversion cache of a state agrees with the image shown last, and
    every image shown was scaled with a context built for its frame. *)
Definition cache_in_sync (s : AppState) : Prop :=
  exists older img,
    shown s = older ++ [img] /\
    sws_ctx (player s) = Some (scaled_with img) /\
    cached_triple (player s) = frame_triple (scaled_from img) /\
    Forall built_for (shown s).

(** The session handles and the stream of a state are in place. *)
Definition session_open (s : AppState) : Prop :=
  fmt_ctx (player s) = true /\ dec_ctx (player s) = true /\
  exists st, video_stream (player s) = Some st.

(** The two products [av_rescale_q] divides by and multiplies with:
    ticks of the time base per [frame_ticks_den] frames. *)
Definition frame_ticks_num (st : AVStream) : Z :=
  den (effective_rate st) * den (time_base st).

Definition frame_ticks_den (st : AVStream) : Z :=
  num (time_base st) * num (effective_rate st).

(** A stream whose time base was never set. *)
Definition stream_no_time_base : AVStream :=
  mkStream (mkRational 25 1) (mkRational 25 1) (mkRational 0 1).

(** The key 'b', answered by a scan from the start of the file. *)
Definition step_backward_event : Event :=
  {| key := 98; seek_ret := 0;
     input := [ mkRead 1 0 [RecvFrame (frame_at 0);
                            RecvFrame (frame_at 3600)] ];
     clone_ok := true;
     sws_ok := true |}.

Definition sample_back : AppState :=
  Eval vm_compute in
    match loop_iteration sample_stepped step_backward_event with
    | Some s => s
    | None => sample_stepped
    end.

(** [sample_opened] after the key 's'. *)
Definition sample_playing : AppState :=
  Eval vm_compute in
    match loop_iteration sample_opened (with_key step_forward_event 115) with
    | Some s => s
    | None => sample_opened
    end.

(** * Properties *)

Example ts_of_frame5 :
  frame_number_to_stream_ts 5
    stream_25_90k = 18000.
Proof. vm_compute. reflexivity. Qed.

Example frame_of_ts18000 :
  pts_to_frame_number 18000
    stream_25_90k = 5.
Proof. vm_compute. reflexivity. Qed.

Example rescale_wide_ex :
  av_rescale_rnd 7 (2 ^ 40) (2 ^ 33 + 1) AV_ROUND_NEAR_INF
  = (7 * 2 ^ 40 + (2 ^ 33 + 1) / 2) / (2 ^ 33 + 1).
Proof. vm_compute. reflexivity. Qed.

Example rescale_neg_ex :
  av_rescale_rnd (-7) 3 2 AV_ROUND_NEAR_INF = -11.
Proof. vm_compute. reflexivity. Qed.

(** ** Arithmetic of [av_rescale_rnd] *)

Lemma u64_small x : 0 <= x < 2 ^ 64 -> u64 x = x.
Proof. intros H. unfold u64. apply Z.mod_small. exact H. Qed.

Lemma s64_small x : - 2 ^ 63 <= x < 2 ^ 63 -> s64 x = x.
Proof. intros H. unfold s64. rewrite Z.mod_small; lia. Qed.

Lemma land_1_bit x i : 0 <= i -> Z.land (Z.shiftr x i) 1 = (x / 2 ^ i) mod 2.
Proof.
  intros Hi. rewrite Z.shiftr_div_pow2 by exact Hi.
  change 1 with (Z.ones 1) at 1. rewrite Z.land_ones by lia. reflexivity.
Qed.

Lemma mod_pow2_succ x i : 0 <= i ->
  x mod 2 ^ (i + 1) = ((x / 2 ^ i) mod 2) * 2 ^ i + x mod 2 ^ i.
Proof.
  intros Hi. rewrite Z.pow_add_r by lia. change (2 ^ 1) with 2.
  assert (Hp : 0 < 2 ^ i) by (apply Z.pow_pos_nonneg; lia).
  rewrite Z.rem_mul_r by lia. lia.
Qed.

Lemma mod_mul_add x P Y M : 0 < M ->
  ((x mod M) * P + Y) mod M = (x * P + Y) mod M.
Proof.
  intros HM. rewrite (Z.add_mod (x mod M * P)) by lia.
  rewrite Z.mul_mod_idemp_l by lia.
  rewrite <- Z.add_mod by lia. reflexivity.
Qed.

Lemma rescale_div_loop_spec n : forall a0 a1 t1 c,
  0 < c < 2 ^ 63 -> 0 <= a1 < c -> 0 <= t1 < 2 ^ 64 ->
  rescale_div_loop n a0 a1 t1 c
  = (t1 * 2 ^ Z.of_nat n + (a1 * 2 ^ Z.of_nat n + a0 mod 2 ^ Z.of_nat n) / c)
    mod 2 ^ 64.
Proof.
  induction n as [|i IH]; intros a0 a1 t1 c Hc Ha1 Ht1.
  - cbn [rescale_div_loop]. change (2 ^ Z.of_nat 0) with 1.
    rewrite Z.mod_1_r, Z.mul_1_r, Z.mul_1_r, Z.add_0_r.
    rewrite (Z.div_small a1 c) by lia. rewrite Z.add_0_r.
    symmetry. apply Z.mod_small. exact Ht1.
  - cbn [rescale_div_loop].
    rewrite land_1_bit by lia.
    set (bit := (a0 / 2 ^ Z.of_nat i) mod 2).
    assert (Hbit : 0 <= bit <= 1) by (subst bit; pose proof (Z.mod_pos_bound (a0 / 2 ^ Z.of_nat i) 2); lia).
    assert (H63 : 2 ^ 64 = 2 * 2 ^ 63) by reflexivity.
    rewrite (u64_small (a1 + bit)) by lia.
    rewrite (u64_small (a1 + (a1 + bit))) by lia.
    set (a1' := a1 + (a1 + bit)).
    assert (Hp : 0 < 2 ^ Z.of_nat i) by (apply Z.pow_pos_nonneg; lia).
    replace (Z.of_nat (S i)) with (Z.of_nat i + 1) by lia.
    rewrite (mod_pow2_succ a0) by lia. fold bit.
    rewrite Z.pow_add_r by lia. change (2 ^ 1) with 2.
    set (P := 2 ^ Z.of_nat i) in *.
    set (lo := a0 mod P).
    destruct (Z.leb_spec c a1') as [Hle|Hlt].
    + rewrite IH; [ | lia | rewrite u64_small by lia; lia | unfold u64; apply Z.mod_pos_bound; lia ].
      fold P lo. rewrite (u64_small (a1' - c)) by lia.
      unfold u64. rewrite Z.add_mod_idemp_l by lia.
      rewrite mod_mul_add by lia.
      replace (a1 * (P * 2) + (bit * P + lo)) with ((a1' - c) * P + lo + P * c) by (subst a1'; ring).
      rewrite Z.div_add by lia.
      f_equal. ring.
    + rewrite IH; [ | lia | subst a1'; lia | unfold u64; apply Z.mod_pos_bound; lia ].
      fold P lo. unfold u64.
      rewrite mod_mul_add by lia.
      f_equal. replace (a1 * (P * 2) + (bit * P + lo)) with (a1' * P + lo) by (subst a1'; ring).
      ring.
Qed.

Lemma add_carry x y M : 0 < M -> 0 <= x < M -> 0 <= y < M ->
  (x + y) mod M + M * (if (x + y) mod M <? y then 1 else 0) = x + y.
Proof.
  intros HM Hx Hy.
  destruct (Z_lt_ge_dec (x + y) M) as [Hs|Hs].
  - rewrite Z.mod_small by lia.
    destruct (Z.ltb_spec (x + y) y); lia.
  - replace ((x + y) mod M) with (x + y - M).
    + destruct (Z.ltb_spec (x + y - M) y); lia.
    + apply (Z.mod_unique (x + y) M 1); lia.
Qed.

Lemma rescale_wide_spec a b c r :
  0 <= a < 2 ^ 63 -> 0 <= b < 2 ^ 63 -> 0 < c < 2 ^ 63 -> 0 <= r < 2 ^ 63 ->
  (a * b + r) / c <= INT64_MAX ->
  rescale_wide a b c r = (a * b + r) / c.
Proof.
  intros Ha Hb Hc Hr Hq.
  unfold rescale_wide.
  change 4294967295 with (Z.ones 32).
  rewrite !Z.land_ones by lia. rewrite !Z.shiftr_div_pow2 by lia.
  rewrite Z.shiftl_mul_pow2 by lia.
  set (W := 2 ^ 32). set (M := 2 ^ 64).
  assert (HW : W = 4294967296) by reflexivity.
  assert (HM : M = W * W) by reflexivity.
  assert (H63 : 2 ^ 63 = 2147483648 * W) by reflexivity.
  pose proof (Z.div_mod a W ltac:(lia)) as Ea.
  pose proof (Z.div_mod b W ltac:(lia)) as Eb.
  pose proof (Z.mod_pos_bound a W ltac:(lia)) as Ba0.
  pose proof (Z.mod_pos_bound b W ltac:(lia)) as Bb0.
  assert (Ba1 : 0 <= a / W < 2147483648).
  { split; [apply Z.div_pos; lia | apply Z.div_lt_upper_bound; lia]. }
  assert (Bb1 : 0 <= b / W < 2147483648).
  { split; [apply Z.div_pos; lia | apply Z.div_lt_upper_bound; lia]. }
  set (a0 := a mod W) in *. set (a1 := a / W) in *.
  set (b0 := b mod W) in *. set (b1 := b / W) in *.
  assert (B01 : 0 <= a0 * b1 <= (W - 1) * 2147483647) by nia.
  assert (B10 : 0 <= a1 * b0 <= 2147483647 * (W - 1)) by nia.
  assert (B00 : 0 <= a0 * b0 <= (W - 1) * (W - 1)) by nia.
  assert (B11 : 0 <= a1 * b1 <= 2147483647 * 2147483647) by nia.
  set (p01 := a0 * b1) in *. set (p10 := a1 * b0) in *.
  set (p00 := a0 * b0) in *. set (p11 := a1 * b1) in *.
  assert (Eab : a * b = p11 * M + (p01 + p10) * W + p00).
  { rewrite HM. subst p01 p10 p00 p11. rewrite Ea at 1. rewrite Eb at 1. ring. }
  unfold u64. fold M.
  rewrite (Z.mod_small p01 M) by lia.
  rewrite (Z.mod_small p10 M) by lia.
  rewrite (Z.mod_small (p01 + p10) M) by lia.
  rewrite (Z.mod_small p00 M) by lia.
  rewrite (Z.mod_small p11 M) by lia.
  set (t1 := p01 + p10) in *.
  assert (Bt1 : 0 <= t1 < M) by lia.
  pose proof (Z.div_mod t1 W ltac:(lia)) as Et.
  pose proof (Z.mod_pos_bound t1 W ltac:(lia)) as Bt0.
  assert (Bth : 0 <= t1 / W < W).
  { split; [apply Z.div_pos; lia | apply Z.div_lt_upper_bound; lia]. }
  assert (Et1a : (t1 * W) mod M = (t1 mod W) * W).
  { rewrite HM. rewrite Z.mul_mod_distr_r by lia. reflexivity. }
  rewrite Et1a.
  set (tl := t1 mod W) in *. set (th := t1 / W) in *.
  assert (Btla : 0 <= tl * W < M) by nia.
  set (t1a := tl * W) in *.
  pose proof (add_carry p00 t1a M ltac:(lia) ltac:(lia) ltac:(lia)) as C1.
  pose proof (Z.mod_pos_bound (p00 + t1a) M ltac:(lia)) as Bl.
  set (l0 := (p00 + t1a) mod M) in *.
  set (c1 := if l0 <? t1a then 1 else 0) in *.
  assert (Bc1 : 0 <= c1 <= 1) by (subst c1; destruct (l0 <? t1a); lia).
  rewrite (Z.mod_small (p11 + th) M) by lia.
  rewrite (Z.mod_small (p11 + th + c1) M) by lia.
  pose proof (add_carry l0 r M ltac:(lia) ltac:(lia) ltac:(lia)) as C2.
  pose proof (Z.mod_pos_bound (l0 + r) M ltac:(lia)) as Bl2.
  set (l1 := (l0 + r) mod M) in *.
  set (c2 := if l1 <? r then 1 else 0) in *.
  assert (Bc2 : 0 <= c2 <= 1) by (subst c2; destruct (l1 <? r); lia).
  rewrite (Z.mod_small (p11 + th + c1 + c2) M) by lia.
  set (h := p11 + th + c1 + c2) in *.
  assert (Etot : a * b + r = h * M + l1).
  { rewrite Eab. subst h. nia. }
  assert (Hh : 0 <= h < c).
  { split; [lia|].
    destruct (Z_lt_ge_dec h c) as [|Hge]; [assumption|exfalso].
    assert (c * M <= a * b + r) by nia.
    assert (M <= (a * b + r) / c) by (apply Z.div_le_lower_bound; lia).
    unfold INT64_MAX in Hq. lia. }
  rewrite rescale_div_loop_spec by (fold M; lia).
  change (Z.of_nat 64) with 64. fold M.
  rewrite (Z.mod_small l1 M) by lia.
  rewrite <- Etot.
  assert (Hq0 : 0 <= (a * b + r) / c) by (apply Z.div_pos; nia).
  rewrite <- Z.add_mod_idemp_l by lia.
  rewrite Z.mod_mul by lia. rewrite Z.add_0_l.
  unfold INT64_MAX in *.
  rewrite (Z.mod_small ((a * b + r) / c) M) by lia.
  destruct (Z.gtb_spec ((a * b + r) / c) (2 ^ 63 - 1)); [lia | reflexivity].
Qed.

(** The recursive call is made on a positive argument, where the body does
    not recurse: the two-level definition satisfies the equation of the
    recursive function. *)
Lemma av_rescale_rnd_body_nonneg self1 self2 a b c rnd :
  0 <= a ->
  av_rescale_rnd_body self1 a b c rnd = av_rescale_rnd_body self2 a b c rnd.
Proof.
  intros Ha. unfold av_rescale_rnd_body.
  destruct (Z.ltb_spec a 0); [lia | reflexivity].
Qed.

Lemma av_rescale_rnd_unfold a b c rnd :
  av_rescale_rnd a b c rnd = av_rescale_rnd_body av_rescale_rnd a b c rnd.
Proof.
  unfold av_rescale_rnd at 1. unfold av_rescale_rnd_body at 1 3.
  destruct ((c <=? 0) || (b <? 0) || negb (rnd_valid rnd)); [reflexivity|].
  cbv zeta.
  destruct (negb (Z.land rnd AV_ROUND_PASS_MINMAX =? 0)
            && ((a =? INT64_MIN) || (a =? INT64_MAX))); [reflexivity|].
  destruct (Z.ltb_spec a 0) as [Hneg|]; [|reflexivity].
  unfold av_rescale_rnd.
  do 3 f_equal. apply av_rescale_rnd_body_nonneg.
  unfold INT64_MAX. lia.
Qed.

Lemma div_split a b c r : 0 < c ->
  (a * b + r) / c = a / c * b + (a mod c * b + r) / c.
Proof.
  intros Hc. rewrite (Z.div_mod a c) at 1 by lia.
  replace ((c * (a / c) + a mod c) * b + r)
    with (a mod c * b + r + (a / c * b) * c) by ring.
  rewrite Z.div_add by lia. ring.
Qed.

Lemma av_rescale_rnd_near a b c :
  0 <= a <= INT64_MAX -> 0 <= b <= INT64_MAX -> 0 < c <= INT64_MAX ->
  (a * b + c / 2) / c <= INT64_MAX ->
  av_rescale_rnd a b c AV_ROUND_NEAR_INF = (a * b + c / 2) / c.
Proof.
  intros Ha Hb Hc Hq. unfold INT64_MAX in *.
  unfold av_rescale_rnd, av_rescale_rnd_body at 1.
  change (rnd_valid AV_ROUND_NEAR_INF) with true.
  change (Z.land AV_ROUND_NEAR_INF AV_ROUND_PASS_MINMAX =? 0) with true.
  cbv beta iota zeta. cbn [negb andb orb]. cbv beta iota.
  rewrite (Z.eqb_refl AV_ROUND_NEAR_INF).
  destruct (Z.leb_spec c 0); [lia|].
  destruct (Z.ltb_spec b 0); [lia|].
  destruct (Z.ltb_spec a 0); [lia|].
  cbn [negb andb orb].
  assert (Hr : Z.quot c 2 = c / 2) by (apply Z.quot_div_nonneg; lia).
  rewrite Hr.
  assert (Br : 0 <= c / 2 < c).
  { split; [apply Z.div_pos; lia | apply Z.div_lt_upper_bound; lia]. }
  assert (Hab : 0 <= a * b) by (apply Z.mul_nonneg_nonneg; lia).
  assert (Hq0 : 0 <= (a * b + c / 2) / c) by (apply Z.div_pos; lia).
  destruct ((b <=? INT_MAX) && (c <=? INT_MAX)) eqn:Hsmall.
  - destruct (Z.leb_spec a INT_MAX) as [Hai|Hai].
    + apply Z.quot_div_nonneg; lia.
    + assert (Ead : Z.quot a c = a / c) by (apply Z.quot_div_nonneg; lia).
      assert (Eam : Z.rem a c = a mod c) by (apply Z.rem_mod_nonneg; lia).
      pose proof (Z.mod_pos_bound a c ltac:(lia)) as Bm.
      assert (Bad : 0 <= a / c) by (apply Z.div_pos; lia).
      rewrite Ead, Eam.
      assert (Hmb : 0 <= a mod c * b) by (apply Z.mul_nonneg_nonneg; lia).
      assert (Ea2 : Z.quot (a mod c * b + c / 2) c = (a mod c * b + c / 2) / c)
        by (apply Z.quot_div_nonneg; lia).
      rewrite Ea2.
      pose proof (div_split a b c (c / 2) ltac:(lia)) as Es.
      assert (Ba2 : 0 <= (a mod c * b + c / 2) / c) by (apply Z.div_pos; lia).
      set (ad := a / c) in *. set (a2 := (a mod c * b + c / 2) / c) in *.
      assert (Hadb : 0 <= ad * b) by (apply Z.mul_nonneg_nonneg; lia).
      assert (Hov : (ad >=? INT32_MAX) && negb (b =? 0)
                    && (ad >? Z.quot (INT64_MAX - a2) b) = false).
      { destruct (Z.eqb_spec b 0) as [Hb0|Hb0].
        - cbn [negb andb]. rewrite andb_false_r. reflexivity.
        - apply andb_false_intro2. unfold INT64_MAX.
          assert (Eq : Z.quot (2 ^ 63 - 1 - a2) b = (2 ^ 63 - 1 - a2) / b)
            by (apply Z.quot_div_nonneg; lia).
          rewrite Eq.
          destruct (Z.gtb_spec ad ((2 ^ 63 - 1 - a2) / b)) as [Hgt|]; [|reflexivity].
          exfalso.
          assert (ad <= (2 ^ 63 - 1 - a2) / b); [|lia].
          apply Z.div_le_lower_bound; lia. }
      rewrite Hov. rewrite Es in Hq |- *. clearbody ad a2.
      apply s64_small. lia.
  - apply rescale_wide_spec; unfold INT64_MAX; lia.
Qed.

Lemma round_trip_math n b c :
  0 < c <= b -> ((n * b + c / 2) / c * c + b / 2) / b = n.
Proof.
  intros Hcb.
  pose proof (Z.div_mod (n * b + c / 2) c ltac:(lia)) as E.
  pose proof (Z.mod_pos_bound (n * b + c / 2) c ltac:(lia)) as B.
  pose proof (Z.div_mod c 2 ltac:(lia)) as Ec.
  pose proof (Z.mod_pos_bound c 2 ltac:(lia)) as Bc.
  pose proof (Z.div_mod b 2 ltac:(lia)) as Eb.
  pose proof (Z.mod_pos_bound b 2 ltac:(lia)) as Bb.
  assert (Em : c = b -> (n * b + c / 2) mod c = c / 2).
  { intros ->. rewrite Z.add_comm, Z.mod_add by lia.
    apply Z.mod_small. lia. }
  set (q := (n * b + c / 2) / c) in *.
  set (m := (n * b + c / 2) mod c) in *.
  symmetry. apply (Z.div_unique _ _ _ (c / 2 - m + b / 2)).
  - left. destruct (Z.eq_dec c b) as [Hcb'|Hcb']; [specialize (Em Hcb')|]; lia.
  - lia.
Qed.

(** ** TimebaseConverter *)

Lemma frame_number_to_stream_ts_rate x st :
  frame_number_to_stream_ts x st
  = av_rescale_q x (av_inv_q (effective_rate st)) (time_base st).
Proof. reflexivity. Qed.

Lemma pts_to_frame_number_rate x st :
  pts_to_frame_number x st
  = av_rescale_q x (time_base st) (av_inv_q (effective_rate st)).
Proof. reflexivity. Qed.

Lemma rate_with_fallbacks_effective st :
  rate_with_fallbacks st = effective_rate st.
Proof.
  unfold rate_with_fallbacks, effective_rate, default_rate.
  destruct (num (avg_frame_rate st) =? 0) eqn:Hn; cbn [negb].
  - reflexivity.
  - rewrite Hn. cbn [orb]. reflexivity.
Qed.

(** C3, as amended.  For a frame number [n >= 0] and a stream whose
    effective frame rate and time base have positive [int] numerators and
    denominators, whose frame lasts at least one unit of the time base, and
    for which the timestamp of frame [n] fits in [int64_t], converting [n]
    to a timestamp and back gives [n] again.  Both conversions are integer
    computations that round to nearest. *)
Theorem round_trip_fine_time_base n st :
  usable_stream st ->
  num (time_base st) * num (effective_rate st)
    <= den (effective_rate st) * den (time_base st) ->
  0 <= n <= INT64_MAX ->
  (n * (den (effective_rate st) * den (time_base st))
   + num (time_base st) * num (effective_rate st) / 2)
    / (num (time_base st) * num (effective_rate st)) <= INT64_MAX ->
  pts_to_frame_number (frame_number_to_stream_ts n st) st = n.
Proof.
  intros (Hrn & Hrd & Htn & Htd) Hfine Hn Hts.
  change (frame_number_to_stream_ts n st)
    with (av_rescale_rnd n (den (effective_rate st) * den (time_base st))
            (num (time_base st) * num (effective_rate st)) AV_ROUND_NEAR_INF).
  change (pts_to_frame_number ?t st)
    with (av_rescale_rnd t (num (time_base st) * num (effective_rate st))
            (den (effective_rate st) * den (time_base st)) AV_ROUND_NEAR_INF).
  set (b := den (effective_rate st) * den (time_base st)) in *.
  set (c := num (time_base st) * num (effective_rate st)) in *.
  unfold INT_MAX, INT64_MAX in *.
  assert (Hb : 0 < b <= (2 ^ 31 - 1) * (2 ^ 31 - 1)) by (subst b; nia).
  assert (Hc : 0 < c <= (2 ^ 31 - 1) * (2 ^ 31 - 1)) by (subst c; nia).
  clearbody b c.
  assert (Hnb : 0 <= n * b) by (apply Z.mul_nonneg_nonneg; lia).
  assert (Hc2 : 0 <= c / 2) by (apply Z.div_pos; lia).
  assert (Hb2 : 0 <= b / 2) by (apply Z.div_pos; lia).
  assert (Hts0 : 0 <= (n * b + c / 2) / c) by (apply Z.div_pos; lia).
  rewrite (av_rescale_rnd_near n b c) by (unfold INT64_MAX; lia).
  set (ts := (n * b + c / 2) / c) in *.
  assert (Hback : (ts * c + b / 2) / b = n) by (apply round_trip_math; lia).
  rewrite av_rescale_rnd_near; unfold INT64_MAX; lia.
Qed.

Lemma round_trip_fine_time_base_witness :
  pts_to_frame_number (frame_number_to_stream_ts 5 stream_25_90k)
    stream_25_90k = 5.
Proof.
  apply (round_trip_fine_time_base 5 stream_25_90k);
    unfold usable_stream; cbn; unfold INT_MAX, INT64_MAX; lia.
Defined.

(** C3, as stated, fails: at 50 frames per second on a time base of 1/25
    second, frame 1 maps to timestamp 1, and timestamp 1 maps to frame 2. *)
Lemma round_trip_fails_coarse_time_base :
  frame_number_to_stream_ts 1 stream_50_in_25ths = 1 /\
  pts_to_frame_number (frame_number_to_stream_ts 1 stream_50_in_25ths)
    stream_50_in_25ths <> 1.
Proof. split; [vm_compute; reflexivity | vm_compute; discriminate]. Qed.

(** C4, as amended.  Seek-target computation and frame-number recovery
    rescale with one and the same effective rate, and that rate is 25/1
    when the declared average rate has a zero numerator and [r_frame_rate]
    has a zero numerator or denominator, and when the declared average rate
    has a nonzero numerator over a zero denominator. *)
Theorem same_effective_rate st x :
  frame_number_to_stream_ts x st
    = av_rescale_q x (av_inv_q (effective_rate st)) (time_base st) /\
  pts_to_frame_number x st
    = av_rescale_q x (time_base st) (av_inv_q (effective_rate st)) /\
  (effective_rate st =
     if ((num (avg_frame_rate st) =? 0)
         && ((num (r_frame_rate st) =? 0) || (den (r_frame_rate st) =? 0)))
        || (negb (num (avg_frame_rate st) =? 0)
            && (den (avg_frame_rate st) =? 0))
     then default_rate
     else if num (avg_frame_rate st) =? 0 then r_frame_rate st
          else avg_frame_rate st).
Proof.
  split; [reflexivity | split; [reflexivity|]].
  unfold effective_rate, default_rate.
  destruct (num (avg_frame_rate st) =? 0) eqn:Hn; cbn [negb andb orb].
  - rewrite orb_false_r. reflexivity.
  - rewrite Hn. cbn [orb]. reflexivity.
Qed.

(** C4, as stated, fails: with a declared average rate of 0/1 and an
    [r_frame_rate] of 30/1 the conversions do not use 25 frames per second
    (one frame is 3000 ticks of 1/90000 second, not 3600). *)
Lemma zero_rate_not_always_25 :
  num (avg_frame_rate stream_r30) = 0 /\
  frame_number_to_stream_ts 1 stream_r30 = 3000 /\
  av_rescale_q 1 (av_inv_q default_rate) (time_base stream_r30) = 3600 /\
  effective_rate stream_r30 <> default_rate.
Proof.
  repeat split; try (vm_compute; reflexivity). vm_compute. discriminate.
Qed.

(** ** SeekDecoder and SequentialDecoder *)

Lemma find_app_frames (f : AVFrame -> bool) (l1 l2 : list AVFrame) :
  find f (l1 ++ l2)
  = match find f l1 with Some x => Some x | None => find f l2 end.
Proof.
  induction l1 as [|x l1 IH]; [reflexivity|].
  cbn [app find]. destruct (f x); [reflexivity | exact IH].
Qed.

Lemma seek_receive_loop_find p target_ts rs :
  seek_receive_loop p target_ts rs
  = match first_at_or_after p target_ts (leading_frames rs) with
    | Some frame => Some (frame, effective_pts p frame)
    | None => None
    end.
Proof.
  unfold first_at_or_after.
  induction rs as [|r rs IH]; [reflexivity|].
  destruct r as [frame| | |err]; try reflexivity.
  cbn [seek_receive_loop leading_frames find].
  destruct (effective_pts p frame >=? target_ts); [reflexivity | exact IH].
Qed.

Lemma seek_read_loop_find p target_ts input clone_ok :
  seek_read_loop p target_ts input clone_ok
  = match first_at_or_after p target_ts (yielded p input) with
    | Some frame =>
        (av_frame_clone clone_ok frame,
         set_last_shown_pts p (effective_pts p frame))
    | None => (None, p)
    end.
Proof.
  unfold first_at_or_after, yielded.
  induction input as [|packet rest IH]; [reflexivity|].
  cbn [seek_read_loop flat_map]. rewrite find_app_frames.
  destruct (stream_index packet =? video_stream_idx p); cbn [negb andb];
    [|exact IH].
  destruct (send_ret packet <? 0); cbn [negb]; [exact IH|].
  rewrite seek_receive_loop_find. unfold first_at_or_after.
  destruct (find _ (leading_frames (receives packet))); [reflexivity|exact IH].
Qed.

Lemma next_read_loop_head p input clone_ok :
  next_read_loop p input clone_ok
  = match yielded p input with
    | frame :: _ =>
        (av_frame_clone clone_ok frame,
         set_last_shown_pts p (effective_pts p frame))
    | [] => (None, p)
    end.
Proof.
  unfold yielded.
  induction input as [|packet rest IH]; [reflexivity|].
  cbn [next_read_loop flat_map].
  destruct (stream_index packet =? video_stream_idx p); cbn [negb andb];
    [|exact IH].
  destruct (send_ret packet <? 0); cbn [negb]; [exact IH|].
  destruct (receives packet) as [|[frame| | |err] rs];
    cbn [next_receive_loop leading_frames app]; try exact IH.
  reflexivity.
Qed.

Lemma seek_and_decode_frame_delivery p n seek_ret input clone_ok :
  delivery p clone_ok (seek_and_decode_frame p n seek_ret input clone_ok).
Proof.
  unfold seek_and_decode_frame, delivery.
  destruct (video_stream p) as [st|]; [|left; reflexivity].
  destruct (negb (fmt_ctx p) || negb (dec_ctx p)); [left; reflexivity|].
  destruct (seek_ret <? 0); [left; reflexivity|].
  rewrite seek_read_loop_find.
  destruct (first_at_or_after _ _ _) as [frame|]; [|left; reflexivity].
  right. exists frame. reflexivity.
Qed.

Lemma decode_next_frame_delivery p input clone_ok :
  delivery p clone_ok (decode_next_frame p input clone_ok).
Proof.
  unfold decode_next_frame, delivery.
  destruct (negb (fmt_ctx p) || negb (dec_ctx p)); [left; reflexivity|].
  rewrite next_read_loop_head.
  destruct (yielded p input) as [|frame rest]; [left; reflexivity|].
  right. exists frame. reflexivity.
Qed.

(** A call that came back with a frame wrote that frame's timestamp. *)
Lemma delivery_some p clone_ok frame p' :
  delivery p clone_ok (Some frame, p') ->
  clone_ok = true /\ p' = set_last_shown_pts p (effective_pts p frame).
Proof.
  intros [H|[f H]]; [discriminate|].
  destruct clone_ok; cbn [av_frame_clone] in H; [|discriminate].
  injection H as -> ->. split; reflexivity.
Qed.

(** A call that came back empty left the player alone, unless the clone
    failed; then it differs in [last_shown_pts] only. *)
Lemma delivery_none p clone_ok p' :
  delivery p clone_ok (None, p') ->
  (clone_ok = true -> p' = p) /\
  exists v, p' = set_last_shown_pts p v.
Proof.
  intros [H|[f H]].
  - injection H as ->. split; [reflexivity|].
    exists (last_shown_pts p). destruct p; reflexivity.
  - destruct clone_ok; cbn [av_frame_clone] in H; [discriminate|].
    injection H as ->. split; [discriminate|].
    eexists. reflexivity.
Qed.

(** C2, as amended.  With the session open, [seek_and_decode_frame]
    returns no frame and leaves the player alone when the seek fails or
    the frames run out before one is stamped at or after the target;
    otherwise, for the first frame the decoder yields whose effective
    timestamp is at or after the timestamp of the target frame number, it
    returns that frame if [av_frame_clone] copies it, recording that
    timestamp in [last_shown_pts], and no frame if it does not. *)
Theorem seek_returns_first_at_or_after p st n seek_ret input clone_ok :
  video_stream p = Some st -> fmt_ctx p = true -> dec_ctx p = true ->
  0 <= n ->
  if seek_ret <? 0
  then seek_and_decode_frame p n seek_ret input clone_ok = (None, p)
  else
    match first_at_or_after p (frame_number_to_stream_ts n st)
            (yielded p input) with
    | Some frame =>
        fst (seek_and_decode_frame p n seek_ret input clone_ok)
          = (if clone_ok then Some frame else None) /\
        (clone_ok = true ->
         seek_and_decode_frame p n seek_ret input clone_ok
         = (Some frame, set_last_shown_pts p (effective_pts p frame)))
    | None => seek_and_decode_frame p n seek_ret input clone_ok = (None, p)
    end.
Proof.
  intros Hst Hfmt Hdec _. unfold seek_and_decode_frame.
  rewrite Hst, Hfmt, Hdec. cbn [negb orb].
  destruct (seek_ret <? 0); [reflexivity|].
  rewrite seek_read_loop_find.
  destruct (first_at_or_after _ _ _) as [frame|]; [|reflexivity].
  split; [reflexivity|]. intros ->. reflexivity.
Qed.

Lemma seek_returns_first_at_or_after_witness :
  fst (seek_and_decode_frame (opened_player stream_25_90k 0) 5 0
         scan_to_frame5 true) = Some (frame_at 18000) /\
  (true = true ->
   seek_and_decode_frame (opened_player stream_25_90k 0) 5 0
     scan_to_frame5 true
   = (Some (frame_at 18000), opened_player stream_25_90k 18000)).
Proof.
  exact (seek_returns_first_at_or_after
           (opened_player stream_25_90k 0) stream_25_90k 5 0 scan_to_frame5
           true eq_refl eq_refl eq_refl ltac:(lia)).
Defined.

(** C2, as stated, fails: the scan reaches a frame stamped at the target,
    [av_frame_clone] returns null, and the call returns no frame although
    the seek succeeded and the frames were not exhausted. *)
Lemma seek_returns_nothing_without_clone :
  first_at_or_after (opened_player stream_25_90k 0)
    (frame_number_to_stream_ts 5 stream_25_90k)
    (yielded (opened_player stream_25_90k 0) scan_to_frame5)
  = Some (frame_at 18000) /\
  fst (seek_and_decode_frame (opened_player stream_25_90k 0) 5 0
         scan_to_frame5 false) = None.
Proof. split; reflexivity. Qed.

(** C8 does not hold of the code.  Lines 126-128 and 161-162 write
    [last_shown_pts] before the result of [av_frame_clone] is looked at:
    when the clone is null, either decoder returns no frame and has moved
    [last_shown_pts] (here from 7200 to 18000, and from 7200 to 10800). *)
Theorem clone_failure_moves_last_shown_pts :
  seek_and_decode_frame (opened_player stream_25_90k 7200) 5 0
    scan_to_frame5 false
  = (None, opened_player stream_25_90k 18000) /\
  decode_next_frame (opened_player stream_25_90k 7200) scan_to_frame5 false
  = (None, opened_player stream_25_90k 10800).
Proof. split; reflexivity. Qed.

(** C5, as amended.  The effective timestamp of a frame is its best-effort
    timestamp when it has one, else its own timestamp when it has one, else
    [last_shown_pts + 1].  The synthesized value is a function of the player
    and is strictly greater than [last_shown_pts], the timestamp of the
    frame delivered last; so a frame without timestamps that
    [decode_next_frame] delivers advances [last_shown_pts] by one.  (Here
    [last_shown_pts] is any [int64_t] below [INT64_MAX].) *)
Theorem effective_pts_rule p frame :
  INT64_MIN <= last_shown_pts p < INT64_MAX ->
  effective_pts p frame
    = (if negb (best_effort_timestamp frame =? AV_NOPTS_VALUE)
       then best_effort_timestamp frame
       else if negb (pts frame =? AV_NOPTS_VALUE) then pts frame
       else last_shown_pts p + 1) /\
  (best_effort_timestamp frame = AV_NOPTS_VALUE ->
   pts frame = AV_NOPTS_VALUE ->
   last_shown_pts p < effective_pts p frame) /\
  (forall input clone_ok p',
     decode_next_frame p input clone_ok = (Some frame, p') ->
     best_effort_timestamp frame = AV_NOPTS_VALUE ->
     pts frame = AV_NOPTS_VALUE ->
     last_shown_pts p' = last_shown_pts p + 1).
Proof.
  intros Hlast.
  assert (Hsyn : s64 (last_shown_pts p + 1) = last_shown_pts p + 1).
  { apply s64_small. unfold INT64_MIN, INT64_MAX in Hlast. lia. }
  assert (Hrule : effective_pts p frame
    = (if negb (best_effort_timestamp frame =? AV_NOPTS_VALUE)
       then best_effort_timestamp frame
       else if negb (pts frame =? AV_NOPTS_VALUE) then pts frame
       else last_shown_pts p + 1)).
  { unfold effective_pts.
    destruct (Z.eqb_spec (best_effort_timestamp frame) AV_NOPTS_VALUE)
      as [Hb|Hb]; cbn [negb].
    - destruct (pts frame =? AV_NOPTS_VALUE); cbn [negb];
        [exact Hsyn | reflexivity].
    - destruct (Z.eqb_spec (best_effort_timestamp frame) AV_NOPTS_VALUE);
        [contradiction | reflexivity]. }
  split; [exact Hrule|].
  assert (Hun : best_effort_timestamp frame = AV_NOPTS_VALUE ->
                pts frame = AV_NOPTS_VALUE ->
                effective_pts p frame = last_shown_pts p + 1).
  { intros Hb Hp. rewrite Hrule, Hb, Hp, Z.eqb_refl. reflexivity. }
  split.
  - intros Hb Hp. rewrite (Hun Hb Hp). lia.
  - intros input clone_ok p' Hdec Hb Hp.
    pose proof (decode_next_frame_delivery p input clone_ok) as Hd.
    rewrite Hdec in Hd. destruct (delivery_some _ _ _ _ Hd) as [_ ->].
    cbn [set_last_shown_pts last_shown_pts]. exact (Hun Hb Hp).
Qed.

Lemma effective_pts_rule_witness :
  effective_pts (opened_player stream_25_90k 10) frame_untimed = 11.
Proof.
  assert (H : INT64_MIN <= last_shown_pts (opened_player stream_25_90k 10)
              < INT64_MAX) by (cbn; unfold INT64_MIN, INT64_MAX; lia).
  rewrite (proj1 (effective_pts_rule
                    (opened_player stream_25_90k 10) frame_untimed H)).
  reflexivity.
Defined.

(** C5, as stated, fails: a scan for frame 5 that examines and skips a
    frame stamped 100 and then a frame without timestamps gives the second
    the synthesized timestamp 11, which is below the 100 assigned before;
    a second frame without timestamps gets 11 again. *)
Lemma synthesized_pts_not_above_skipped :
  let p := opened_player stream_25_90k 10 in
  let input := [ mkRead 0 0 [RecvFrame (frame_at 100);
                             RecvFrame frame_untimed;
                             RecvFrame frame_untimed] ] in
  yielded p input = [frame_at 100; frame_untimed; frame_untimed] /\
  (forall clone_ok, seek_and_decode_frame p 5 0 input clone_ok = (None, p)) /\
  map (effective_pts p) (yielded p input) = [100; 11; 11] /\
  ~ effective_pts p (frame_at 100) < effective_pts p frame_untimed.
Proof.
  cbv zeta. split; [reflexivity|].
  split; [intros []; reflexivity|].
  split; [reflexivity|]. vm_compute. discriminate.
Qed.

(** C9.  A player that has delivered no frame holds the sentinel
    [AV_NOPTS_VALUE], the least [int64_t], in [last_shown_pts].  For such a
    player a frame without best-effort and own timestamps gets the
    effective timestamp [INT64_MIN + 1], which is below every target
    timestamp that is not negative, and a seek scan that meets the frame
    goes on as if the decoder had not produced it. *)
Theorem untimed_frame_skipped_before_first_delivery
    p st n seek_ret idx sret frame rest more clone_ok :
  video_stream p = Some st ->
  last_shown_pts p = AV_NOPTS_VALUE ->
  best_effort_timestamp frame = AV_NOPTS_VALUE ->
  pts frame = AV_NOPTS_VALUE ->
  0 <= frame_number_to_stream_ts n st ->
  last_shown_pts FFPlayer_init = AV_NOPTS_VALUE /\
  (forall i st', last_shown_pts (session_player i st') = AV_NOPTS_VALUE) /\
  AV_NOPTS_VALUE = INT64_MIN /\
  effective_pts p frame = INT64_MIN + 1 /\
  effective_pts p frame < frame_number_to_stream_ts n st /\
  seek_and_decode_frame p n seek_ret
    (mkRead idx sret (RecvFrame frame :: rest) :: more) clone_ok
  = seek_and_decode_frame p n seek_ret (mkRead idx sret rest :: more)
      clone_ok.
Proof.
  intros Hst Hlast Hb Hp Htarget.
  assert (Heff : effective_pts p frame = INT64_MIN + 1).
  { unfold effective_pts. rewrite Hb, Hp, Hlast. reflexivity. }
  assert (Hlt : effective_pts p frame < frame_number_to_stream_ts n st).
  { rewrite Heff. unfold INT64_MIN. lia. }
  repeat split; try reflexivity; try assumption.
  unfold seek_and_decode_frame. rewrite Hst.
  destruct (negb (fmt_ctx p) || negb (dec_ctx p)); [reflexivity|].
  destruct (seek_ret <? 0); [reflexivity|].
  cbn [seek_read_loop stream_index send_ret receives seek_receive_loop].
  destruct (Z.geb_spec (effective_pts p frame)
              (frame_number_to_stream_ts n st)); [lia | reflexivity].
Qed.

Lemma untimed_frame_skipped_before_first_delivery_witness :
  seek_and_decode_frame (session_player 0 stream_25_90k) 0 0
    [ mkRead 0 0 [RecvFrame frame_untimed; RecvFrame (frame_at 0)] ] true
  = seek_and_decode_frame (session_player 0 stream_25_90k) 0 0
      [ mkRead 0 0 [RecvFrame (frame_at 0)] ] true.
Proof.
  apply (untimed_frame_skipped_before_first_delivery
           (session_player 0 stream_25_90k) stream_25_90k 0 0 0 0
           frame_untimed [RecvFrame (frame_at 0)] [] true);
    first [reflexivity | vm_compute; discriminate].
Defined.

(** ** PlaybackController *)

Lemma sws_refresh_eq frame p ok :
  sws_refresh frame p ok
  = if sws_stale frame p
    then set_sws p
           (sws_getContext ok (width frame) (height frame) (format frame)
              (width frame) (height frame) AV_PIX_FMT_BGR24 SWS_BILINEAR)
           (width frame) (height frame) (format frame)
    else p.
Proof.
  unfold sws_refresh, sws_refresh_traced.
  destruct (sws_stale frame p); reflexivity.
Qed.

Lemma avframe_to_cvmat_eq frame p ok :
  avframe_to_cvmat frame p ok
  = (match sws_ctx (sws_refresh frame p ok) with
     | Some ctx => Some (mkMat (height frame) (width frame) ctx frame)
     | None => None
     end, sws_refresh frame p ok).
Proof.
  unfold avframe_to_cvmat, avframe_to_cvmat_traced, sws_refresh.
  destruct (sws_refresh_traced frame p ok) as [p1 made]. cbn [fst].
  destruct (sws_ctx p1); reflexivity.
Qed.

Lemma sws_refresh_keeps frame p ok :
  last_shown_pts (sws_refresh frame p ok) = last_shown_pts p /\
  video_stream (sws_refresh frame p ok) = video_stream p.
Proof.
  rewrite !sws_refresh_eq. destruct (sws_stale frame p); split; reflexivity.
Qed.

Lemma avframe_to_cvmat_inv frame p ok img p' :
  avframe_to_cvmat frame p ok = (Some img, p') ->
  p' = sws_refresh frame p ok /\ scaled_from img = frame /\
  sws_ctx p' = Some (scaled_with img).
Proof.
  rewrite avframe_to_cvmat_eq. intros H.
  destruct (sws_ctx (sws_refresh frame p ok)) as [ctx|] eqn:Hctx;
    [|discriminate].
  injection H as <- <-. repeat split. exact Hctx.
Qed.

Lemma main_open_started env s :
  main_open env = Started s ->
  exists idx st frame p1 img,
    find_video_stream 0 (streams env) = Some (idx, st) /\
    seek_and_decode_frame (session_player idx st) 0
      (first_seek_ret env) (first_input env) (first_clone_ok env)
      = (Some frame, p1) /\
    avframe_to_cvmat frame p1 (first_sws_ok env) = (Some img, player s) /\
    s = {| player := player s;
           current_frame :=
             pts_to_frame_number (last_shown_pts (player s)) st;
           playing := false; should_quit := false; shown := [img] |}.
Proof.
  unfold main_open. intros H.
  destruct (argc env <? 2); [discriminate|].
  destruct (open_input_ret env <? 0); [discriminate|].
  destruct (find_stream_info_ret env <? 0); [discriminate|].
  destruct (find_video_stream 0 (streams env)) as [[idx st]|];
    [|discriminate].
  destruct (negb (decoder_found env)); [discriminate|].
  destruct (negb (context_allocated env)); [discriminate|].
  destruct (parameters_to_context_ret env <? 0); [discriminate|].
  destruct (open2_ret env <? 0); [discriminate|].
  cbv zeta in H.
  destruct (seek_and_decode_frame (session_player idx st) 0
              (first_seek_ret env) (first_input env) (first_clone_ok env))
    as [[frame|] p1] eqn:Hseek; [|discriminate].
  destruct (avframe_to_cvmat frame p1 (first_sws_ok env))
    as [[img|] p2] eqn:Hconv; [|discriminate].
  injection H as <-. cbn [player].
  exists idx, st, frame, p1, img. repeat split; assumption.
Qed.

(** What [main_open] has done when it starts the loop. *)
Lemma main_open_facts env s :
  main_open env = Started s ->
  exists idx st frame img,
    find_video_stream 0 (streams env) = Some (idx, st) /\
    first_clone_ok env = true /\
    seek_and_decode_frame (session_player idx st) 0
      (first_seek_ret env) (first_input env) (first_clone_ok env)
    = (Some frame,
       set_last_shown_pts (session_player idx st)
         (effective_pts (session_player idx st) frame)) /\
    avframe_to_cvmat frame
      (set_last_shown_pts (session_player idx st)
         (effective_pts (session_player idx st) frame))
      (first_sws_ok env) = (Some img, player s) /\
    scaled_from img = frame /\ shown s = [img] /\
    playing s = false /\ should_quit s = false /\
    video_stream (player s) = Some st /\
    last_shown_pts (player s) = effective_pts (session_player idx st) frame /\
    current_frame s = pts_to_frame_number (last_shown_pts (player s)) st.
Proof.
  intros Hopen.
  destruct (main_open_started env s Hopen)
    as (idx & st & frame & p1 & img & Hfind & Hseek & Hconv & Hs).
  pose proof (seek_and_decode_frame_delivery (session_player idx st) 0
                (first_seek_ret env) (first_input env) (first_clone_ok env))
    as Hd.
  rewrite Hseek in Hd. destruct (delivery_some _ _ _ _ Hd) as [Hclone Hp1].
  subst p1.
  destruct (avframe_to_cvmat_inv _ _ _ _ _ Hconv) as (Hp & Hfrom & _).
  exists idx, st, frame, img. repeat split; try assumption.
  - rewrite Hs. reflexivity.
  - rewrite Hs. reflexivity.
  - rewrite Hs. reflexivity.
  - rewrite Hp, (proj2 (sws_refresh_keeps _ _ _)). reflexivity.
  - rewrite Hp, (proj1 (sws_refresh_keeps _ _ _)). reflexivity.
  - rewrite Hs at 1. reflexivity.
Qed.

Lemma set_last_shown_pts_same p :
  set_last_shown_pts p (last_shown_pts p) = p.
Proof. destruct p; reflexivity. Qed.


Lemma show_frame_inv s p frame ok pl s' :
  show_frame s p frame ok pl = Some s' ->
  exists img p2 st,
    avframe_to_cvmat frame p ok = (Some img, p2) /\
    video_stream p2 = Some st /\
    s' = {| player := p2;
            current_frame := pts_to_frame_number (last_shown_pts p2) st;
            playing := pl; should_quit := should_quit s;
            shown := shown s ++ [img] |}.
Proof.
  unfold show_frame. intros H.
  destruct (avframe_to_cvmat frame p ok) as [[img|] p2]; [|discriminate].
  destruct (video_stream p2) as [st|] eqn:Hst; [|discriminate].
  injection H as <-. exists img, p2, st. repeat split. exact Hst.
Qed.

(** An iteration either shows nothing, keeps frame number and images and
    changes the player in [last_shown_pts] at most (and not at all unless
    the clone failed), or shows the frame one of the decoders delivered. *)
Lemma loop_iteration_cases s ev s' :
  loop_iteration s ev = Some s' ->
  (current_frame s' = current_frame s /\ shown s' = shown s /\
   (clone_ok ev = true -> player s' = player s) /\
   exists v, player s' = set_last_shown_pts (player s) v) \/
  (exists frame pl,
     show_frame s
       (set_last_shown_pts (player s) (effective_pts (player s) frame))
       frame (sws_ok ev) pl = Some s').
Proof.
  unfold loop_iteration.
  pose proof (decode_next_frame_delivery (player s) (input ev) (clone_ok ev))
    as Hnext.
  pose proof (fun n => seek_and_decode_frame_delivery (player s) n
                         (seek_ret ev) (input ev) (clone_ok ev)) as Hseek.
  assert (Hkeep : forall b s1,
            Some (with_player s (player s) b) = Some s1 ->
            current_frame s1 = current_frame s /\ shown s1 = shown s /\
            (clone_ok ev = true -> player s1 = player s) /\
            exists v, player s1 = set_last_shown_pts (player s) v).
  { intros b s1 H. injection H as <-. cbn [with_player player]. repeat split.
    exists (last_shown_pts (player s)). symmetry.
    apply set_last_shown_pts_same. }
  assert (Hnone : forall p s1,
            delivery (player s) (clone_ok ev) (None, p) ->
            Some (with_player s p false) = Some s1 ->
            current_frame s1 = current_frame s /\ shown s1 = shown s /\
            (clone_ok ev = true -> player s1 = player s) /\
            exists v, player s1 = set_last_shown_pts (player s) v).
  { intros p s1 Hd H. injection H as <-. cbn [with_player player].
    destruct (delivery_none _ _ _ Hd) as [H1 H2]. repeat split; assumption. }
  assert (Hsome : forall nf p pl,
            delivery (player s) (clone_ok ev) (Some nf, p) ->
            show_frame s p nf (sws_ok ev) pl = Some s' ->
            exists frame pl0,
              show_frame s
                (set_last_shown_pts (player s)
                   (effective_pts (player s) frame))
                frame (sws_ok ev) pl0 = Some s').
  { intros nf p pl Hd H. destruct (delivery_some _ _ _ _ Hd) as [_ ->].
    exists nf, pl. exact H. }
  destruct ((key ev =? -1) && playing s).
  - destruct (decode_next_frame (player s) (input ev) (clone_ok ev))
      as [[nf|] p].
    + intros H. right. exact (Hsome _ _ _ Hnext H).
    + intros H. left. exact (Hnone _ _ Hnext H).
  - cbv zeta.
    destruct ((key ev =? 27) || (Z.land (key ev) 255 =? 113)).
    { intros H. injection H as <-. left. cbn [player current_frame shown].
      repeat split. exists (last_shown_pts (player s)). symmetry.
      apply set_last_shown_pts_same. }
    destruct (Z.land (key ev) 255 =? 32).
    { intros H. left. exact (Hkeep _ _ H). }
    destruct ((Z.land (key ev) 255 =? 110) || (key ev =? 83)).
    { specialize (Hseek (s64 (current_frame s + 1))).
      destruct (seek_and_decode_frame (player s) (s64 (current_frame s + 1))
                  (seek_ret ev) (input ev) (clone_ok ev)) as [[nf|] p].
      - intros H. right. exact (Hsome _ _ _ Hseek H).
      - intros H. left. exact (Hnone _ _ Hseek H). }
    destruct ((Z.land (key ev) 255 =? 98) || (key ev =? 81)).
    { specialize (Hseek (if current_frame s >? 0
                         then current_frame s - 1 else 0)).
      destruct (seek_and_decode_frame (player s)
                  (if current_frame s >? 0 then current_frame s - 1 else 0)
                  (seek_ret ev) (input ev) (clone_ok ev)) as [[bf|] p].
      - intros H. right. exact (Hsome _ _ _ Hseek H).
      - intros H. left. exact (Hnone _ _ Hseek H). }
    destruct (Z.land (key ev) 255 =? 115).
    { intros H. left. exact (Hkeep _ _ H). }
    destruct (Z.land (key ev) 255 =? 112).
    { intros H. left. exact (Hkeep _ _ H). }
    intros H. injection H as <-. left. repeat split.
    exists (last_shown_pts (player s)). symmetry.
    apply set_last_shown_pts_same.
Qed.

(** What an iteration that shows a frame leaves. *)
Lemma shown_frame_facts s v frame ok pl s' :
  show_frame s (set_last_shown_pts (player s) v) frame ok pl = Some s' ->
  exists img st,
    shown s' = shown s ++ [img] /\ scaled_from img = frame /\
    video_stream (player s') = Some st /\
    video_stream (player s) = Some st /\
    last_shown_pts (player s') = v /\
    current_frame s' = pts_to_frame_number (last_shown_pts (player s')) st.
Proof.
  intros Hshow.
  destruct (show_frame_inv _ _ _ _ _ _ Hshow)
    as (img & p2 & st & Hconv & Hst & ->).
  destruct (avframe_to_cvmat_inv _ _ _ _ _ Hconv) as (Hp2 & Hfrom & _).
  exists img, st. cbn [shown player current_frame].
  repeat split; try assumption.
  - rewrite Hp2, (proj2 (sws_refresh_keeps _ _ _)) in Hst. exact Hst.
  - rewrite Hp2, (proj1 (sws_refresh_keeps _ _ _)). reflexivity.
Qed.



Lemma run_loop_reachable evs : forall s s',
  reachable s -> run_loop s evs = Some s' -> reachable s'.
Proof.
  induction evs as [|ev rest IH]; intros s s' Hs Hrun; cbn [run_loop] in Hrun.
  - injection Hrun as <-. exact Hs.
  - destruct (should_quit s) eqn:Hq.
    + injection Hrun as <-. exact Hs.
    + destruct (loop_iteration s ev) as [s1|] eqn:Hstep; [|discriminate].
      exact (IH s1 s' (reach_step s ev s1 Hs Hq Hstep) Hrun).
Qed.

(** A step whose clone fails shows nothing: lines 251-252 keep
    [current_frame] and the image, while [last_shown_pts] has moved to the
    timestamp of the frame that was not delivered, here that of frame 1. *)
Example step_without_clone :
  loop_iteration sample_opened step_forward_no_clone
  = Some (with_player sample_opened
            (set_last_shown_pts (player sample_opened) 3600) false) /\
  current_frame sample_opened = 0 /\
  pts_to_frame_number 3600 stream_25_90k = 1.
Proof. repeat split. Qed.



Lemma pts_to_frame_number_zero st :
  usable_stream st -> pts_to_frame_number 0 st = 0.
Proof.
  intros (Hrn & Hrd & Htn & Htd).
  change (pts_to_frame_number 0 st)
    with (av_rescale_rnd 0 (num (time_base st) * num (effective_rate st))
            (den (effective_rate st) * den (time_base st)) AV_ROUND_NEAR_INF).
  set (b := num (time_base st) * num (effective_rate st)).
  set (c := den (effective_rate st) * den (time_base st)).
  unfold INT_MAX in *.
  assert (Hb : 0 < b <= (2 ^ 31 - 1) * (2 ^ 31 - 1)) by (subst b; nia).
  assert (Hc : 0 < c <= (2 ^ 31 - 1) * (2 ^ 31 - 1)) by (subst c; nia).
  clearbody b c.
  assert (Hz : (0 * b + c / 2) / c = 0).
  { apply Z.div_small. rewrite Z.mul_0_l, Z.add_0_l.
    split; [apply Z.div_pos; lia | apply Z.div_lt_upper_bound; lia]. }
  rewrite av_rescale_rnd_near; unfold INT64_MAX; lia.
Qed.

(** C7, as amended.  When [main] gets as far as its command loop, it has
    selected the first video stream, obtained the first frame from
    [seek_and_decode_frame] with target frame 0 on the freshly opened
    session, converted it and shown it, and it is paused with
    [current_frame] equal to [pts_to_frame_number] of the timestamp of
    that frame; on a usable stream this is 0 when the timestamp is 0. *)
Theorem open_shows_first_frame env s :
  main_open env = Started s ->
  exists idx st frame p1 img,
    find_video_stream 0 (streams env) = Some (idx, st) /\
    seek_and_decode_frame (session_player idx st) 0
      (first_seek_ret env) (first_input env) (first_clone_ok env)
      = (Some frame, p1) /\
    avframe_to_cvmat frame p1 (first_sws_ok env) = (Some img, player s) /\
    shown s = [img] /\ scaled_from img = frame /\
    playing s = false /\ should_quit s = false /\
    last_shown_pts (player s) = effective_pts (session_player idx st) frame /\
    current_frame s = pts_to_frame_number (last_shown_pts (player s)) st /\
    (usable_stream st -> last_shown_pts (player s) = 0 ->
     current_frame s = 0).
Proof.
  intros Hopen.
  destruct (main_open_facts env s Hopen)
    as (idx & st & frame & img & Hfind & _ & Hseek & Hconv & Hfrom & Hshown
        & Hplay & Hquit & _ & Hlast & Hcur).
  exists idx, st, frame,
    (set_last_shown_pts (session_player idx st)
       (effective_pts (session_player idx st) frame)), img.
  repeat split; try assumption.
  intros Hus Hzero. rewrite Hcur, Hzero.
  exact (pts_to_frame_number_zero st Hus).
Qed.

Lemma open_shows_first_frame_witness :
  exists idx st frame p1 img,
    find_video_stream 0 (streams (open_env_first_at 0)) = Some (idx, st) /\
    seek_and_decode_frame (session_player idx st) 0
      (first_seek_ret (open_env_first_at 0))
      (first_input (open_env_first_at 0))
      (first_clone_ok (open_env_first_at 0)) = (Some frame, p1) /\
    avframe_to_cvmat frame p1 (first_sws_ok (open_env_first_at 0))
      = (Some img, player sample_opened) /\
    shown sample_opened = [img] /\ scaled_from img = frame /\
    playing sample_opened = false /\ should_quit sample_opened = false /\
    last_shown_pts (player sample_opened)
      = effective_pts (session_player idx st) frame /\
    current_frame sample_opened
      = pts_to_frame_number (last_shown_pts (player sample_opened)) st /\
    (usable_stream st -> last_shown_pts (player sample_opened) = 0 ->
     current_frame sample_opened = 0).
Proof.
  apply (open_shows_first_frame (open_env_first_at 0) sample_opened).
  reflexivity.
Defined.

(** C7, as stated, fails: when the first frame the scan for frame 0
    delivers is stamped 3600 (one frame duration at 25 frames per second on
    a 1/90000 time base), [main] enters its loop paused with
    [current_frame] equal to 1. *)
Lemma open_may_start_at_frame_one :
  exists s,
    main_open (open_env_first_at 3600) = Started s /\
    playing s = false /\ current_frame s = 1 /\ current_frame s <> 0.
Proof.
  eexists. split; [vm_compute; reflexivity|].
  cbn [playing current_frame]. repeat split. discriminate.
Qed.

(** C10.  Both conversions rescale with the rate chosen by the order of
    fallbacks: the declared average rate; for a zero numerator,
    [r_frame_rate], and 25/1 when that has a zero numerator or denominator;
    for a nonzero numerator over a zero denominator, 25/1.  [main] stores
    the same rate in the player. *)
Theorem conversions_use_rate_with_fallbacks st x env :
  frame_number_to_stream_ts x st
    = av_rescale_q x (av_inv_q (rate_with_fallbacks st)) (time_base st) /\
  pts_to_frame_number x st
    = av_rescale_q x (time_base st) (av_inv_q (rate_with_fallbacks st)) /\
  match main_open env with
  | Started s =>
      exists st', video_stream (player s) = Some st' /\
                  player_avg_frame_rate (player s) = rate_with_fallbacks st'
  | _ => True
  end.
Proof.
  rewrite rate_with_fallbacks_effective.
  split; [reflexivity | split; [reflexivity|]].
  destruct (main_open env) as [s| |] eqn:Hopen; try exact I.
  destruct (main_open_facts env s Hopen)
    as (idx & st' & frame & img & _ & _ & _ & Hconv & _ & _ & _ & _ & Hst'
        & _).
  exists st'. split; [exact Hst'|].
  destruct (avframe_to_cvmat_inv _ _ _ _ _ Hconv) as (Hp & _ & _).
  rewrite Hp, rate_with_fallbacks_effective, sws_refresh_eq.
  destruct (sws_stale _ _); reflexivity.
Qed.

(** ** ColorConverter *)

Lemma triple_eqb_eq a b : triple_eqb a b = true <-> a = b.
Proof.
  destruct a as [[aw ah] af], b as [[bw bh] bf]. unfold triple_eqb.
  rewrite !andb_true_iff, !Z.eqb_eq. split.
  - intros [[-> ->] ->]. reflexivity.
  - intros H. injection H as -> -> ->. repeat split.
Qed.

Lemma sws_stale_spec frame p :
  sws_stale frame p
  = match sws_ctx p with
    | None => true
    | Some _ => negb (triple_eqb (cached_triple p) (frame_triple frame))
    end.
Proof.
  unfold sws_stale, cached_triple, frame_triple, triple_eqb.
  destruct (sws_ctx p); [|reflexivity]. cbn [orb].
  rewrite !negb_andb. reflexivity.
Qed.

Lemma sws_stale_iff frame p :
  sws_stale frame p = true <->
  sws_ctx p = None \/ cached_triple p <> frame_triple frame.
Proof.
  rewrite sws_stale_spec. destruct (sws_ctx p) as [ctx|].
  - rewrite negb_true_iff. split.
    + intros H. right. intros E. apply triple_eqb_eq in E. congruence.
    + intros [H|H]; [discriminate|].
      destruct (triple_eqb _ _) eqn:E; [|reflexivity].
      apply triple_eqb_eq in E. contradiction.
  - split; [left; reflexivity | reflexivity].
Qed.

(** One successful call: what it leaves in the player and returns. *)
Lemma avframe_to_cvmat_step frame p ok img p' :
  match sws_ctx p with
  | Some ctx => context_triple ctx = cached_triple p
  | None => True
  end ->
  avframe_to_cvmat frame p ok = (Some img, p') ->
  sws_ctx p' = Some (scaled_with img) /\
  cached_triple p' = frame_triple frame /\
  context_triple (scaled_with img) = frame_triple frame /\
  scaled_from img = frame.
Proof.
  intros Hcoh Hconv.
  destruct (avframe_to_cvmat_inv _ _ _ _ _ Hconv) as (Hp & Hfrom & Hctx).
  split; [exact Hctx|]. rewrite Hp in Hctx |- *. clear Hp Hconv.
  rewrite sws_refresh_eq in *.
  destruct (sws_stale frame p) eqn:Hstale.
  - cbn [set_sws sws_ctx] in Hctx. unfold sws_getContext in Hctx.
    destruct ok; [|discriminate]. injection Hctx as <-.
    repeat split; assumption.
  - rewrite sws_stale_spec in Hstale. rewrite Hctx in Hstale, Hcoh.
    apply negb_false_iff, triple_eqb_eq in Hstale.
    repeat split; congruence.
Qed.

(** The libswscale calls of one [avframe_to_cvmat]. *)
Lemma avframe_to_cvmat_traced_eq frame p ok :
  avframe_to_cvmat_traced frame p ok
  = (fst (avframe_to_cvmat frame p ok), snd (avframe_to_cvmat frame p ok),
     (if sws_stale frame p
      then match sws_ctx p with
           | Some old => [CallFreeContext old]
           | None => []
           end
           ++ [CallGetContext (width frame) (height frame) (format frame)
                 (sws_getContext ok (width frame) (height frame)
                    (format frame) (width frame) (height frame)
                    AV_PIX_FMT_BGR24 SWS_BILINEAR)]
      else [])
     ++ match sws_ctx (sws_refresh frame p ok) with
        | Some ctx => [CallScale ctx frame]
        | None => []
        end).
Proof.
  unfold avframe_to_cvmat, sws_refresh, avframe_to_cvmat_traced,
    sws_refresh_traced.
  destruct (sws_stale frame p); cbn [fst snd].
  - destruct (sws_getContext ok _ _ _ _ _ _ _);
      cbn [set_sws sws_ctx fst snd]; [reflexivity|].
    rewrite app_nil_r. reflexivity.
  - destruct (sws_ctx p); reflexivity.
Qed.

Lemma made_get_contexts frame p ok :
  rebuilt (snd (avframe_to_cvmat_traced frame p ok)) = sws_stale frame p /\
  length (filter is_get_context (snd (avframe_to_cvmat_traced frame p ok)))
  = if sws_stale frame p then 1%nat else 0%nat.
Proof.
  rewrite avframe_to_cvmat_traced_eq. cbn [snd]. unfold rebuilt.
  rewrite !existsb_app, !filter_app, !length_app.
  destruct (sws_stale frame p);
    destruct (sws_ctx p); destruct (sws_ctx (sws_refresh frame p ok));
    split; reflexivity.
Qed.

Lemma convert_frames_made calls : forall p q out,
  match sws_ctx p with
  | Some ctx => context_triple ctx = cached_triple p
  | None => True
  end ->
  convert_frames p calls = Some (q, out) ->
  map (fun r => rebuilt (fst r)) out
  = changes (match sws_ctx p with
             | Some _ => Some (cached_triple p)
             | None => None
             end)
      (map (fun c => frame_triple (fst c)) calls) /\
  Forall (fun r => length (filter is_get_context (fst r))
                   = if rebuilt (fst r) then 1%nat else 0%nat) out /\
  Forall (fun r => built_for (snd r)) out /\
  Forall (fun r => Forall scale_matches (fst r)) out /\
  map (fun r => scaled_from (snd r)) out = map fst calls.
Proof.
  induction calls as [|[frame ok] rest IH]; intros p q out Hcoh Hrun.
  - injection Hrun as <- <-. repeat split; constructor.
  - cbn [convert_frames] in Hrun.
    pose proof (made_get_contexts frame p ok) as [Hreb Hcount].
    pose proof (avframe_to_cvmat_traced_eq frame p ok) as Heq.
    destruct (avframe_to_cvmat_traced frame p ok) as [[oimg p'] made]
      eqn:Htr.
    cbn [snd] in Hreb, Hcount.
    destruct oimg as [img|]; [|discriminate].
    destruct (convert_frames p' rest) as [[q' out']|] eqn:Hrest;
      [|discriminate].
    injection Hrun as <- <-.
    assert (Hconv : avframe_to_cvmat frame p ok = (Some img, p')).
    { unfold avframe_to_cvmat. rewrite Htr. reflexivity. }
    destruct (avframe_to_cvmat_step _ _ _ _ _ Hcoh Hconv)
      as (Hctx' & Hcached' & Hbuilt & Hfrom).
    destruct (avframe_to_cvmat_inv _ _ _ _ _ Hconv) as (Hp' & _ & _).
    assert (Hcoh' : match sws_ctx p' with
                    | Some ctx => context_triple ctx = cached_triple p'
                    | None => True
                    end) by (rewrite Hctx'; congruence).
    destruct (IH p' q' out' Hcoh' Hrest)
      as (Hflags & Hcounts & Hall & Hscales & Hfroms).
    rewrite Hctx', Hcached' in Hflags.
    cbn [map fst snd changes]. repeat split.
    + rewrite Hflags, Hreb, sws_stale_spec. destruct (sws_ctx p); reflexivity.
    + constructor; [|exact Hcounts]. cbn [fst]. rewrite Hcount, Hreb.
      reflexivity.
    + constructor; [|exact Hall]. cbn [snd]. unfold built_for.
      rewrite Hfrom. exact Hbuilt.
    + constructor; [|exact Hscales]. cbn [fst].
      injection Heq as _ _ ->. rewrite <- Hp', Hctx'.
      apply Forall_app. split.
      * destruct (sws_stale frame p); [|constructor].
        apply Forall_app. split.
        -- destruct (sws_ctx p); repeat constructor.
        -- repeat constructor.
      * constructor; [|constructor]. exact Hbuilt.
    + rewrite Hfrom, Hfroms. reflexivity.
Qed.

Lemma changes_count ts : forall t,
  (length (filter (fun b => b) (changes (Some t) ts)) + 1)%nat
  = distinct_runs (t :: ts).
Proof.
  induction ts as [|t' rest IH]; intros t; [reflexivity|].
  cbn [changes distinct_runs] in *. specialize (IH t').
  destruct (triple_eqb t t'); cbn [negb filter length];
    destruct rest; cbn [changes filter length distinct_runs] in *; lia.
Qed.

Lemma changes_count_from_none ts :
  length (filter (fun b => b) (changes None ts)) = distinct_runs ts.
Proof.
  destruct ts as [|t rest]; [reflexivity|].
  cbn [changes filter length]. rewrite <- changes_count. lia.
Qed.

Lemma get_contexts_total (out : list (list SwsCall * Mat)) :
  Forall (fun r => length (filter is_get_context (fst r))
                   = if rebuilt (fst r) then 1%nat else 0%nat) out ->
  length (filter is_get_context (concat (map fst out)))
  = length (filter (fun b => b) (map (fun r => rebuilt (fst r)) out)).
Proof.
  induction 1 as [|r rest Hr _ IH]; [reflexivity|].
  cbn [map concat filter]. rewrite filter_app, length_app, IH, Hr.
  destruct (rebuilt (fst r)); reflexivity.
Qed.

(** With every context built, a run of conversions goes through. *)
Lemma convert_frames_total calls : forall p,
  Forall (fun c => snd c = true) calls ->
  exists q out, convert_frames p calls = Some (q, out).
Proof.
  induction calls as [|[frame ok] rest IH]; intros p Hok.
  - exists p, []. reflexivity.
  - inversion Hok as [|c cs Hc Hcs]; subst. cbn [snd] in Hc. subst ok.
    cbn [convert_frames]. rewrite avframe_to_cvmat_traced_eq.
    rewrite avframe_to_cvmat_eq. cbn [fst snd].
    assert (Hsome : exists ctx,
              sws_ctx (sws_refresh frame p true) = Some ctx).
    { rewrite sws_refresh_eq. destruct (sws_stale frame p) eqn:Hs.
      - eexists. reflexivity.
      - rewrite sws_stale_spec in Hs.
        destruct (sws_ctx p) as [ctx|]; [exists ctx; reflexivity|discriminate]. }
    destruct Hsome as [ctx Hctx]. rewrite Hctx.
    destruct (IH (sws_refresh frame p true) Hcs) as (q & out & Hrun).
    rewrite Hrun. eexists _, _. reflexivity.
Qed.

(** C6.  A call to [avframe_to_cvmat] obtains a conversion context from
    [sws_getContext] exactly when the player holds no context or the
    cached triple differs from the frame's.  Over a run of calls that
    starts without a context, the call on a frame obtains one exactly when
    the frame is the first or its triple differs from that of the frame
    before, so the calls to [sws_getContext] number the blocks of equal
    consecutive triples; and every [sws_scale], hence every image, uses a
    context obtained for the triple of the frame it is given. *)
Theorem converter_rebuilds_on_change p calls q out :
  sws_ctx p = None ->
  convert_frames p calls = Some (q, out) ->
  (forall frame p0 ok,
     rebuilt (snd (avframe_to_cvmat_traced frame p0 ok)) = true <->
     sws_ctx p0 = None \/ cached_triple p0 <> frame_triple frame) /\
  map (fun r => rebuilt (fst r)) out
    = changes None (map (fun c => frame_triple (fst c)) calls) /\
  length (filter is_get_context (concat (map fst out)))
    = distinct_runs (map (fun c => frame_triple (fst c)) calls) /\
  Forall (fun r => built_for (snd r)) out /\
  Forall scale_matches (concat (map fst out)) /\
  map (fun r => scaled_from (snd r)) out = map fst calls.
Proof.
  intros Hnone Hrun.
  assert (Hcoh : match sws_ctx p with
                 | Some ctx => context_triple ctx = cached_triple p
                 | None => True
                 end) by (rewrite Hnone; exact I).
  destruct (convert_frames_made calls p q out Hcoh Hrun)
    as (Hflags & Hcounts & Hall & Hscales & Hfroms).
  rewrite Hnone in Hflags.
  split.
  { intros frame p0 ok.
    rewrite (proj1 (made_get_contexts frame p0 ok)). apply sws_stale_iff. }
  split; [exact Hflags|].
  split.
  { rewrite (get_contexts_total out Hcounts), Hflags.
    apply changes_count_from_none. }
  split; [exact Hall|].
  split; [|exact Hfroms].
  clear - Hscales. induction Hscales as [|r rest Hr _ IH];
    [constructor|].
  cbn [map concat]. apply Forall_app. split; assumption.
Qed.

Lemma converter_rebuilds_on_change_witness :
  map (fun r => rebuilt (fst r)) (snd sample_converted)
    = [true; false; true] /\
  length (filter is_get_context (concat (map fst (snd sample_converted))))
    = 2%nat /\
  Forall (fun r => built_for (snd r)) (snd sample_converted) /\
  Forall scale_matches (concat (map fst (snd sample_converted))).
Proof.
  destruct (converter_rebuilds_on_change FFPlayer_init sample_calls
              (fst sample_converted) (snd sample_converted)
              eq_refl eq_refl) as (_ & Hflags & Hcount & Hall & Hsc & _).
  repeat split; assumption.
Defined.

(** * Further properties of the code *)

(** ** Stream selection *)

(** X1.  The selection loop of [main] returns the first entry of video
    type, with its position counted from the start index; it returns
    nothing exactly when no entry is of video type. *)
Theorem find_video_stream_first streams : forall i,
  match find_video_stream i streams with
  | Some (j, st) =>
      exists k e,
        j = i + Z.of_nat k /\ nth_error streams k = Some e /\
        codec_type e = AVMEDIA_TYPE_VIDEO /\ entry_stream e = st /\
        Forall (fun e' => codec_type e' <> AVMEDIA_TYPE_VIDEO)
          (firstn k streams)
  | None =>
      Forall (fun e => codec_type e <> AVMEDIA_TYPE_VIDEO) streams
  end.
Proof.
  induction streams as [|e rest IH]; intros i; cbn [find_video_stream].
  - constructor.
  - destruct (Z.eqb_spec (codec_type e) AVMEDIA_TYPE_VIDEO) as [Hv|Hv].
    + exists O, e. cbn [nth_error firstn Z.of_nat]. repeat split.
      * lia.
      * exact Hv.
      * constructor.
    + specialize (IH (i + 1)).
      destruct (find_video_stream (i + 1) rest) as [[j st]|].
      * destruct IH as (k & e' & Hj & Hnth & Hty & Hst & Hbefore).
        exists (S k), e'. cbn [nth_error firstn]. repeat split; try assumption.
        -- lia.
        -- constructor; assumption.
      * constructor; assumption.
Qed.

(** ** The decode loops *)

Lemma find_split (f : AVFrame -> bool) l : forall x,
  find f l = Some x ->
  exists l1 l2, l = l1 ++ x :: l2 /\ f x = true /\
                Forall (fun y => f y = false) l1.
Proof.
  induction l as [|y l IH]; intros x H; [discriminate|].
  cbn [find] in H. destruct (f y) eqn:Hy.
  - injection H as <-. exists [], l. repeat split; [exact Hy | constructor].
  - destruct (IH x H) as (l1 & l2 & -> & Hx & Hall).
    exists (y :: l1), l2. repeat split; [exact Hx | constructor; assumption].
Qed.

Lemma yielded_relevant p input :
  yielded p (relevant_packets p input) = yielded p input.
Proof.
  unfold yielded, relevant_packets.
  induction input as [|packet rest IH]; [reflexivity|].
  cbn [filter flat_map].
  destruct ((stream_index packet =? video_stream_idx p)
            && negb (send_ret packet <? 0)) eqn:Hrel.
  - cbn [flat_map]. rewrite Hrel, IH. reflexivity.
  - exact IH.
Qed.

(** X2.  [decode_next_frame] returns nothing, and the player as it was,
    when a handle is missing or no frame is yielded.  Otherwise it stops
    at the first frame the decoder yields: it records that frame's
    effective timestamp in [last_shown_pts] and returns what
    [av_frame_clone] made of the frame, the frame itself or, if the clone
    failed, nothing. *)
Theorem decode_next_frame_first_yielded p input clone_ok :
  decode_next_frame p input clone_ok
  = if negb (fmt_ctx p) || negb (dec_ctx p) then (None, p)
    else
      match yielded p input with
      | frame :: _ =>
          (if clone_ok then Some frame else None,
           set_last_shown_pts p (effective_pts p frame))
      | [] => (None, p)
      end.
Proof.
  unfold decode_next_frame.
  destruct (negb (fmt_ctx p) || negb (dec_ctx p)); [reflexivity|].
  apply next_read_loop_head.
Qed.

(** X3.  When [seek_and_decode_frame] returns a frame, the timestamp it
    records is at or after the target timestamp, and every frame the
    decoder yielded before that frame was stamped below the target. *)
Theorem seek_skips_until_target p st n seek_ret input clone_ok frame p' :
  video_stream p = Some st ->
  seek_and_decode_frame p n seek_ret input clone_ok = (Some frame, p') ->
  frame_number_to_stream_ts n st <= last_shown_pts p' /\
  exists before after,
    yielded p input = before ++ frame :: after /\
    Forall (fun f => effective_pts p f < frame_number_to_stream_ts n st)
      before.
Proof.
  intros Hst Hseek. unfold seek_and_decode_frame in Hseek.
  rewrite Hst in Hseek.
  destruct (negb (fmt_ctx p) || negb (dec_ctx p)); [discriminate|].
  destruct (seek_ret <? 0); [discriminate|].
  rewrite seek_read_loop_find in Hseek. unfold first_at_or_after in Hseek.
  destruct (find _ (yielded p input)) as [f|] eqn:Hfind; [|discriminate].
  destruct clone_ok; cbn [av_frame_clone] in Hseek; [|discriminate].
  injection Hseek as -> <-.
  destruct (find_split _ _ _ Hfind) as (l1 & l2 & Hy & Hge & Hall).
  split.
  - cbn [set_last_shown_pts last_shown_pts]. lia.
  - exists l1, l2. split; [exact Hy|].
    apply Forall_impl with (2 := Hall). intros f Hf. cbv beta in Hf. lia.
Qed.

Lemma seek_skips_until_target_witness :
  frame_number_to_stream_ts 5 stream_25_90k
    <= last_shown_pts (opened_player stream_25_90k 18000) /\
  exists before after,
    yielded (opened_player stream_25_90k 0) scan_to_frame5
      = before ++ frame_at 18000 :: after /\
    Forall (fun f => effective_pts (opened_player stream_25_90k 0) f
                     < frame_number_to_stream_ts 5 stream_25_90k) before.
Proof.
  apply (seek_skips_until_target (opened_player stream_25_90k 0)
           stream_25_90k 5 0 scan_to_frame5 true (frame_at 18000)
           (opened_player stream_25_90k 18000));
    reflexivity.
Defined.

(** X4.  Packets of other streams and packets the decoder rejected have
    no effect: either decoder gives the same result on the input with
    those packets removed. *)
Theorem decoders_ignore_skipped_packets p n seek_ret input clone_ok :
  seek_and_decode_frame p n seek_ret (relevant_packets p input) clone_ok
    = seek_and_decode_frame p n seek_ret input clone_ok /\
  decode_next_frame p (relevant_packets p input) clone_ok
    = decode_next_frame p input clone_ok.
Proof.
  split.
  - unfold seek_and_decode_frame.
    destruct (video_stream p) as [st|]; [|reflexivity].
    destruct (negb (fmt_ctx p) || negb (dec_ctx p)); [reflexivity|].
    destruct (seek_ret <? 0); [reflexivity|].
    rewrite !seek_read_loop_find, yielded_relevant. reflexivity.
  - unfold decode_next_frame.
    destruct (negb (fmt_ctx p) || negb (dec_ctx p)); [reflexivity|].
    rewrite !next_read_loop_head, yielded_relevant. reflexivity.
Qed.

(** ** The conversion cache *)

Lemma avframe_to_cvmat_cached frame p ok img p' :
  avframe_to_cvmat frame p ok = (Some img, p') ->
  cached_triple p' = frame_triple frame.
Proof.
  intros Hconv.
  destruct (avframe_to_cvmat_inv _ _ _ _ _ Hconv) as (-> & _ & _).
  rewrite sws_refresh_eq. destruct (sws_stale frame p) eqn:Hstale.
  - reflexivity.
  - rewrite sws_stale_spec in Hstale.
    destruct (sws_ctx p); [|discriminate].
    apply negb_false_iff, triple_eqb_eq in Hstale. exact Hstale.
Qed.

(** X5.  After a conversion that returned an image, converting a frame of
    the same width, height and format does not call [sws_getContext]: it
    returns an image scaled with the context of the first one and leaves
    the player as it is, whatever [sws_getContext] would have answered. *)
Theorem conversion_reuses_context frame p ok img p' frame' ok' :
  avframe_to_cvmat frame p ok = (Some img, p') ->
  frame_triple frame' = frame_triple frame ->
  sws_stale frame' p' = false /\
  avframe_to_cvmat frame' p' ok'
  = (Some (mkMat (height frame') (width frame') (scaled_with img) frame'),
     p').
Proof.
  intros Hconv Hsame.
  pose proof (avframe_to_cvmat_cached _ _ _ _ _ Hconv) as Hcached.
  destruct (avframe_to_cvmat_inv _ _ _ _ _ Hconv) as (_ & _ & Hctx).
  assert (Hfresh : sws_stale frame' p' = false).
  { rewrite sws_stale_spec, Hctx, Hcached, <- Hsame.
    apply negb_false_iff, triple_eqb_eq. reflexivity. }
  split; [exact Hfresh|].
  rewrite avframe_to_cvmat_eq, sws_refresh_eq, Hfresh, Hctx. reflexivity.
Qed.

Lemma conversion_reuses_context_witness :
  sws_stale (frame_sized 640 480 3600) (player sample_opened) = false /\
  avframe_to_cvmat (frame_sized 640 480 3600) (player sample_opened) false
  = (Some (mkMat 480 640
             (mkSws 640 480 0 640 480 AV_PIX_FMT_BGR24 SWS_BILINEAR)
             (frame_sized 640 480 3600)),
     player sample_opened).
Proof.
  apply (conversion_reuses_context (frame_at 0)
           (set_last_shown_pts (session_player 1 stream_25_90k) 0) true
           (mkMat 480 640
              (mkSws 640 480 0 640 480 AV_PIX_FMT_BGR24 SWS_BILINEAR)
              (frame_at 0))
           (player sample_opened) (frame_sized 640 480 3600) false);
    reflexivity.
Defined.

(** ** Opening *)

Lemma frame_number_to_stream_ts_zero st :
  usable_stream st -> frame_number_to_stream_ts 0 st = 0.
Proof.
  intros (Hrn & Hrd & Htn & Htd).
  change (frame_number_to_stream_ts 0 st)
    with (av_rescale_rnd 0 (den (effective_rate st) * den (time_base st))
            (num (time_base st) * num (effective_rate st)) AV_ROUND_NEAR_INF).
  set (b := den (effective_rate st) * den (time_base st)).
  set (c := num (time_base st) * num (effective_rate st)).
  unfold INT_MAX in *.
  assert (Hb : 0 < b <= (2 ^ 31 - 1) * (2 ^ 31 - 1)) by (subst b; nia).
  assert (Hc : 0 < c <= (2 ^ 31 - 1) * (2 ^ 31 - 1)) by (subst c; nia).
  clearbody b c.
  assert (Hz : (0 * b + c / 2) / c = 0).
  { apply Z.div_small. rewrite Z.mul_0_l, Z.add_0_l.
    split; [apply Z.div_pos; lia | apply Z.div_lt_upper_bound; lia]. }
  rewrite av_rescale_rnd_near; unfold INT64_MAX; lia.
Qed.

Lemma untimed_before_first_delivery idx st frame :
  has_timestamp frame = false ->
  effective_pts (session_player idx st) frame = INT64_MIN + 1.
Proof.
  unfold has_timestamp. intros H. apply orb_false_iff in H.
  destruct H as [Hb Hp]. apply negb_false_iff in Hb, Hp.
  unfold effective_pts. rewrite Hb. cbn [negb]. rewrite Hp. reflexivity.
Qed.

(** X6.  On a usable stream [main] reaches its command loop only if the
    decoder yields a frame that carries a timestamp, and the frame shown
    first is such a frame: frames without timestamps are all skipped while
    nothing has been delivered, so a file that has only such frames ends
    in "Could not decode first frame". *)
Theorem open_needs_a_timestamp env s idx st :
  main_open env = Started s ->
  find_video_stream 0 (streams env) = Some (idx, st) ->
  usable_stream st ->
  exists img,
    shown s = [img] /\
    has_timestamp (scaled_from img) = true /\
    In (scaled_from img) (yielded (session_player idx st) (first_input env)).
Proof.
  intros Hopen Hfind Hus.
  destruct (main_open_started env s Hopen)
    as (idx' & st' & frame & p1 & img & Hfind' & Hseek & Hconv & Hs).
  rewrite Hfind in Hfind'. injection Hfind' as <- <-.
  destruct (avframe_to_cvmat_inv _ _ _ _ _ Hconv) as (_ & Hfrom & _).
  exists img. split; [rewrite Hs; reflexivity|]. rewrite Hfrom.
  unfold seek_and_decode_frame in Hseek.
  cbn [video_stream session_player fmt_ctx dec_ctx negb orb] in Hseek.
  destruct (first_seek_ret env <? 0); [discriminate|].
  rewrite seek_read_loop_find in Hseek. unfold first_at_or_after in Hseek.
  destruct (find _ _) as [f|] eqn:Hf; [|discriminate].
  destruct (first_clone_ok env); cbn [av_frame_clone] in Hseek;
    [|discriminate].
  injection Hseek as -> _.
  destruct (find_split _ _ _ Hf) as (l1 & l2 & Hy & Hge & _).
  split.
  - destruct (has_timestamp frame) eqn:Hts; [reflexivity|exfalso].
    rewrite (untimed_before_first_delivery idx st frame Hts) in Hge.
    rewrite (frame_number_to_stream_ts_zero st Hus) in Hge.
    vm_compute in Hge. discriminate.
  - rewrite Hy. apply in_or_app. right. left. reflexivity.
Qed.

Lemma open_needs_a_timestamp_witness :
  exists img,
    shown sample_opened = [img] /\
    has_timestamp (scaled_from img) = true /\
    In (scaled_from img)
      (yielded (session_player 1 stream_25_90k)
         (first_input (open_env_first_at 0))).
Proof.
  apply (open_needs_a_timestamp (open_env_first_at 0) sample_opened
           1 stream_25_90k);
    [ reflexivity | reflexivity | ].
  unfold usable_stream. cbn. unfold INT_MAX. lia.
Defined.

(** ** The command loop *)

Lemma land_255_mod k : Z.land k 255 = k mod 256.
Proof. change 255 with (Z.ones 8). apply Z.land_ones. lia. Qed.

(** X7.  An iteration of the command loop changes the frame number only
    when it shows a frame.  Either frame number and images are as before
    and the player differs at most in [last_shown_pts] (not at all unless
    [av_frame_clone] failed), or exactly one image was added, converted
    from a frame a decoder delivered, and [last_shown_pts] is that frame's
    effective timestamp.  In particular a step that finds no frame and a
    playing tick at the end of the stream leave the frame number alone. *)
Theorem state_changes_only_with_a_frame s ev s' :
  loop_iteration s ev = Some s' ->
  (current_frame s' = current_frame s /\ shown s' = shown s /\
   (clone_ok ev = true -> player s' = player s) /\
   exists v, player s' = set_last_shown_pts (player s) v) \/
  (exists img,
     shown s' = shown s ++ [img] /\
     last_shown_pts (player s')
       = effective_pts (player s) (scaled_from img)).
Proof.
  intros H.
  destruct (loop_iteration_cases s ev s' H) as [Hk|(frame & pl & Hshow)].
  - left. exact Hk.
  - right. destruct (shown_frame_facts _ _ _ _ _ _ Hshow)
      as (img & st & Hshown & Hfrom & _ & _ & Hlast & _).
    exists img. rewrite Hfrom. split; assumption.
Qed.

Lemma state_changes_only_with_a_frame_witness :
  (current_frame sample_stepped = current_frame sample_opened /\
   shown sample_stepped = shown sample_opened /\
   (clone_ok step_forward_event = true ->
    player sample_stepped = player sample_opened) /\
   exists v,
     player sample_stepped = set_last_shown_pts (player sample_opened) v) \/
  (exists img,
     shown sample_stepped = shown sample_opened ++ [img] /\
     last_shown_pts (player sample_stepped)
       = effective_pts (player sample_opened) (scaled_from img)).
Proof.
  apply (state_changes_only_with_a_frame sample_opened step_forward_event
           sample_stepped).
  reflexivity.
Defined.

(** X8.  Keys are told apart by their low byte: two key codes that agree
    modulo 256, neither being the timeout -1, ESC or an arrow code (83,
    81), are handled alike. *)
Theorem key_low_byte_decides s ev k1 k2 :
  k1 mod 256 = k2 mod 256 ->
  ~ full_code_key k1 -> ~ full_code_key k2 ->
  loop_iteration s (with_key ev k1) = loop_iteration s (with_key ev k2).
Proof.
  unfold full_code_key. intros Hmod H1 H2.
  assert (Hf : forall k c, k <> c -> (k =? c) = false)
    by (intros k c; apply Z.eqb_neq).
  unfold loop_iteration. cbn [with_key key seek_ret input clone_ok sws_ok].
  rewrite !land_255_mod, Hmod.
  rewrite (Hf k1 (-1)), (Hf k2 (-1)), (Hf k1 27), (Hf k2 27),
    (Hf k1 83), (Hf k2 83), (Hf k1 81), (Hf k2 81) by tauto.
  reflexivity.
Qed.

Lemma key_low_byte_decides_witness :
  loop_iteration sample_opened (with_key step_forward_event 110)
  = loop_iteration sample_opened (with_key step_forward_event 1048686).
Proof.
  apply (key_low_byte_decides sample_opened step_forward_event 110 1048686);
    [ reflexivity | | ]; unfold full_code_key; lia.
Defined.

Lemma sws_refresh_keeps_handles frame p ok :
  fmt_ctx (sws_refresh frame p ok) = fmt_ctx p /\
  dec_ctx (sws_refresh frame p ok) = dec_ctx p.
Proof.
  rewrite !sws_refresh_eq. destruct (sws_stale frame p); split; reflexivity.
Qed.

(** Showing a frame on a player that differs from the state's only in
    [last_shown_pts] keeps the session and the cache in order. *)
Lemma show_frame_keeps_order s v frame ok pl s' :
  fmt_ctx (player s) = true -> dec_ctx (player s) = true ->
  match sws_ctx (player s) with
  | Some ctx => context_triple ctx = cached_triple (player s)
  | None => True
  end ->
  Forall built_for (shown s) ->
  show_frame s (set_last_shown_pts (player s) v) frame ok pl = Some s' ->
  session_open s' /\ cache_in_sync s'.
Proof.
  intros Hfmt Hdec Hcoh Hall Hshow.
  destruct (show_frame_inv _ _ _ _ _ _ Hshow)
    as (img & p2 & st & Hconv & Hst & ->).
  destruct (avframe_to_cvmat_step frame (set_last_shown_pts (player s) v)
              ok img p2 Hcoh Hconv)
    as (Hctx & Hcached & Hbuilt & Hfrom).
  destruct (avframe_to_cvmat_inv _ _ _ _ _ Hconv) as (Hp2 & _ & _).
  split.
  - unfold session_open. cbn [player]. rewrite Hp2.
    destruct (sws_refresh_keeps_handles frame
                (set_last_shown_pts (player s) v) ok) as [-> ->].
    repeat split; try assumption.
    exists st. rewrite <- Hp2. exact Hst.
  - exists (shown s), img. cbn [player shown]. repeat split.
    + exact Hctx.
    + rewrite Hfrom. exact Hcached.
    + apply Forall_app. split; [exact Hall|].
      constructor; [|constructor]. unfold built_for. rewrite Hfrom.
      exact Hbuilt.
Qed.

Lemma cache_in_sync_coherent s :
  cache_in_sync s ->
  match sws_ctx (player s) with
  | Some ctx => context_triple ctx = cached_triple (player s)
  | None => True
  end /\ Forall built_for (shown s).
Proof.
  intros (older & img & Hshown & Hctx & Hcached & Hall).
  split; [|exact Hall]. rewrite Hctx, Hcached.
  rewrite Hshown in Hall. apply Forall_app in Hall.
  destruct Hall as [_ Hlast]. inversion Hlast. assumption.
Qed.

Lemma main_open_in_order env s :
  main_open env = Started s -> session_open s /\ cache_in_sync s.
Proof.
  intros Hopen.
  destruct (main_open_facts env s Hopen)
    as (idx & st & frame & img & _ & _ & _ & Hconv & _ & Hshown & _ & _
        & Hst & _).
  assert (Hcoh : match sws_ctx (set_last_shown_pts (session_player idx st)
                                  (effective_pts (session_player idx st)
                                     frame)) with
                 | Some ctx =>
                     context_triple ctx
                     = cached_triple
                         (set_last_shown_pts (session_player idx st)
                            (effective_pts (session_player idx st) frame))
                 | None => True
                 end) by exact I.
  destruct (avframe_to_cvmat_step frame
              (set_last_shown_pts (session_player idx st)
                 (effective_pts (session_player idx st) frame))
              (first_sws_ok env) img (player s) Hcoh Hconv)
    as (Hctx & Hcached & Hbuilt & Hfrom).
  destruct (avframe_to_cvmat_inv _ _ _ _ _ Hconv) as (Hp & _ & _).
  split.
  - unfold session_open. split; [|split; [|exists st; exact Hst]].
    + rewrite Hp.
      rewrite (proj1 (sws_refresh_keeps_handles _ _ _)). reflexivity.
    + rewrite Hp.
      rewrite (proj2 (sws_refresh_keeps_handles _ _ _)). reflexivity.
  - exists [], img. rewrite Hshown. cbn [app]. repeat split.
    + exact Hctx.
    + rewrite Hfrom. exact Hcached.
    + constructor; [|constructor].
      unfold built_for. rewrite Hfrom. exact Hbuilt.
Qed.

Lemma loop_iteration_in_order s ev s' :
  session_open s /\ cache_in_sync s ->
  loop_iteration s ev = Some s' ->
  session_open s' /\ cache_in_sync s'.
Proof.
  intros [Hses Hcache] Hstep.
  destruct (loop_iteration_cases s ev s' Hstep)
    as [(_ & Hsh & _ & v & Hp)|(frame & pl & Hshow)].
  - split.
    + unfold session_open. rewrite Hp. exact Hses.
    + destruct Hcache as (older & img & H1 & H2 & H3 & H4).
      exists older, img. rewrite Hp, Hsh. repeat split; assumption.
  - destruct Hses as (Hfmt & Hdec & _).
    destruct (cache_in_sync_coherent s Hcache) as [Hcoh Hall].
    exact (show_frame_keeps_order s _ frame (sws_ok ev) pl s'
             Hfmt Hdec Hcoh Hall Hshow).
Qed.

(** X9.  In every state the command loop can reach, the container and
    decoder handles and the video stream are set, at least one image has
    been shown, the cached conversion context is the one the last image
    was scaled with and its cached triple is that image's frame's, and
    every image shown so far was scaled with a context built for its
    frame. *)
Theorem reachable_session_and_cache s :
  reachable s ->
  (fmt_ctx (player s) = true /\ dec_ctx (player s) = true /\
   exists st, video_stream (player s) = Some st) /\
  exists older img,
    shown s = older ++ [img] /\
    sws_ctx (player s) = Some (scaled_with img) /\
    cached_triple (player s) = frame_triple (scaled_from img) /\
    Forall built_for (shown s).
Proof.
  intros H. change (session_open s /\ cache_in_sync s).
  induction H as [env s Hopen | s ev s' _ IH _ Hstep].
  - exact (main_open_in_order env s Hopen).
  - exact (loop_iteration_in_order s ev s' IH Hstep).
Qed.

Lemma reachable_session_and_cache_witness :
  (fmt_ctx (player sample_stepped) = true /\
   dec_ctx (player sample_stepped) = true /\
   exists st, video_stream (player sample_stepped) = Some st) /\
  exists older img,
    shown sample_stepped = older ++ [img] /\
    sws_ctx (player sample_stepped) = Some (scaled_with img) /\
    cached_triple (player sample_stepped) = frame_triple (scaled_from img) /\
    Forall built_for (shown sample_stepped).
Proof.
  apply (reachable_session_and_cache sample_stepped).
  apply (reach_step sample_opened step_forward_event).
  - apply (reach_open (open_env_first_at 0)). reflexivity.
  - reflexivity.
  - reflexivity.
Defined.

Lemma avframe_to_cvmat_built frame p :
  exists img, fst (avframe_to_cvmat frame p true) = Some img.
Proof.
  rewrite avframe_to_cvmat_eq, sws_refresh_eq.
  destruct (sws_stale frame p) eqn:Hs.
  - eexists. reflexivity.
  - rewrite sws_stale_spec in Hs.
    destruct (sws_ctx p) as [ctx|]; [|discriminate].
    eexists. reflexivity.
Qed.

Lemma show_frame_runs s v frame pl :
  (exists st, video_stream (player s) = Some st) ->
  exists s',
    show_frame s (set_last_shown_pts (player s) v) frame true pl = Some s'.
Proof.
  intros [st Hst]. unfold show_frame.
  destruct (avframe_to_cvmat_built frame (set_last_shown_pts (player s) v))
    as [img Himg].
  destruct (avframe_to_cvmat frame (set_last_shown_pts (player s) v) true)
    as [oimg p2] eqn:Hconv.
  cbn [fst] in Himg. subst oimg.
  destruct (avframe_to_cvmat_inv _ _ _ _ _ Hconv) as (-> & _ & _).
  rewrite (proj2 (sws_refresh_keeps _ _ _)).
  cbn [set_last_shown_pts video_stream]. rewrite Hst.
  eexists. reflexivity.
Qed.

(** X10.  From a reachable state an iteration of the command loop runs to
    its end, whatever the key and whatever the container and the decoder
    answer, as long as [sws_getContext] does not return null: no null
    handle, stream or context is dereferenced. *)
Theorem loop_iteration_runs s ev :
  reachable s -> sws_ok ev = true ->
  exists s', loop_iteration s ev = Some s'.
Proof.
  intros Hreach Hok.
  assert (Hst : exists st, video_stream (player s) = Some st).
  { assert (Hs : session_open s /\ cache_in_sync s).
    { clear Hok ev.
      induction Hreach as [env s Hopen | s ev s' _ IH _ Hstep].
      - exact (main_open_in_order env s Hopen).
      - exact (loop_iteration_in_order s ev s' IH Hstep). }
    destruct Hs as [(_ & _ & Hst) _]. exact Hst. }
  unfold loop_iteration. rewrite Hok.
  pose proof (decode_next_frame_delivery (player s) (input ev) (clone_ok ev))
    as Hnext.
  pose proof (fun n => seek_and_decode_frame_delivery (player s) n
                         (seek_ret ev) (input ev) (clone_ok ev)) as Hseek.
  assert (Hshow : forall nf p pl,
            delivery (player s) (clone_ok ev) (Some nf, p) ->
            exists s', show_frame s p nf true pl = Some s').
  { intros nf p pl Hd. destruct (delivery_some _ _ _ _ Hd) as [_ ->].
    apply show_frame_runs. exact Hst. }
  destruct ((key ev =? -1) && playing s).
  - destruct (decode_next_frame (player s) (input ev) (clone_ok ev))
      as [[nf|] p].
    + exact (Hshow _ _ _ Hnext).
    + eexists. reflexivity.
  - cbv zeta.
    destruct ((key ev =? 27) || (Z.land (key ev) 255 =? 113));
      [eexists; reflexivity|].
    destruct (Z.land (key ev) 255 =? 32); [eexists; reflexivity|].
    destruct ((Z.land (key ev) 255 =? 110) || (key ev =? 83)).
    { specialize (Hseek (s64 (current_frame s + 1))).
      destruct (seek_and_decode_frame (player s) (s64 (current_frame s + 1))
                  (seek_ret ev) (input ev) (clone_ok ev)) as [[nf|] p].
      - exact (Hshow _ _ _ Hseek).
      - eexists. reflexivity. }
    destruct ((Z.land (key ev) 255 =? 98) || (key ev =? 81)).
    { specialize (Hseek (if current_frame s >? 0
                         then current_frame s - 1 else 0)).
      destruct (seek_and_decode_frame (player s)
                  (if current_frame s >? 0 then current_frame s - 1 else 0)
                  (seek_ret ev) (input ev) (clone_ok ev)) as [[bf|] p].
      - exact (Hshow _ _ _ Hseek).
      - eexists. reflexivity. }
    destruct (Z.land (key ev) 255 =? 115); [eexists; reflexivity|].
    destruct (Z.land (key ev) 255 =? 112); eexists; reflexivity.
Qed.

Lemma loop_iteration_runs_witness :
  exists s', loop_iteration sample_opened step_forward_event = Some s'.
Proof.
  apply (loop_iteration_runs sample_opened step_forward_event).
  - apply (reach_open (open_env_first_at 0)). reflexivity.
  - reflexivity.
Defined.

Lemma run_loop_after_quit evs : forall s,
  should_quit s = true -> run_loop s evs = Some s.
Proof.
  destruct evs as [|ev rest]; intros s Hq; cbn [run_loop];
    [reflexivity | rewrite Hq; reflexivity].
Qed.

(** X12.  ESC, and any key whose low byte is 'q', ends the loop at once:
    the state gets [should_quit], nothing else changes, no decoder is
    called, and the events that follow are not looked at. *)
Theorem quit_key_ends_loop s ev rest :
  should_quit s = false ->
  key ev = 27 \/ Z.land (key ev) 255 = 113 ->
  run_loop s (ev :: rest)
  = Some {| player := player s; current_frame := current_frame s;
            playing := playing s; should_quit := true;
            shown := shown s |}.
Proof.
  intros Hq Hkey. cbn [run_loop]. rewrite Hq.
  assert (Hnot : (key ev =? -1) = false).
  { apply Z.eqb_neq. intros E. rewrite E in Hkey.
    destruct Hkey as [H|H]; vm_compute in H; discriminate. }
  assert (Hquit : (key ev =? 27) || (Z.land (key ev) 255 =? 113) = true).
  { apply orb_true_iff. destruct Hkey as [H|H]; [left|right];
      apply Z.eqb_eq; exact H. }
  unfold loop_iteration. rewrite Hnot. cbn [andb]. cbv zeta.
  rewrite Hquit. apply run_loop_after_quit. reflexivity.
Qed.

Lemma quit_key_ends_loop_witness :
  run_loop sample_opened
    [with_key step_forward_event 113; step_forward_event]
  = Some {| player := player sample_opened;
            current_frame := current_frame sample_opened;
            playing := playing sample_opened; should_quit := true;
            shown := shown sample_opened |}.
Proof.
  apply (quit_key_ends_loop sample_opened
           (with_key step_forward_event 113) [step_forward_event]).
  - reflexivity.
  - right. reflexivity.
Defined.

(** ** Time-base arithmetic *)

Lemma frame_ticks_bounds st :
  usable_stream st ->
  0 < frame_ticks_num st <= INT64_MAX /\ 0 < frame_ticks_den st <= INT64_MAX.
Proof.
  intros (Hrn & Hrd & Htn & Htd).
  unfold frame_ticks_num, frame_ticks_den, INT_MAX, INT64_MAX in *.
  split; nia.
Qed.

Lemma frame_number_to_stream_ts_closed st n :
  usable_stream st -> 0 <= n <= INT64_MAX ->
  (n * frame_ticks_num st + frame_ticks_den st / 2) / frame_ticks_den st
    <= INT64_MAX ->
  frame_number_to_stream_ts n st
  = (n * frame_ticks_num st + frame_ticks_den st / 2) / frame_ticks_den st.
Proof.
  intros Hus Hn Hfit. destruct (frame_ticks_bounds st Hus) as [Hb Hc].
  change (frame_number_to_stream_ts n st)
    with (av_rescale_rnd n (frame_ticks_num st) (frame_ticks_den st)
            AV_ROUND_NEAR_INF).
  apply av_rescale_rnd_near; try assumption; lia.
Qed.

Lemma pts_to_frame_number_closed st t :
  usable_stream st -> 0 <= t <= INT64_MAX ->
  (t * frame_ticks_den st + frame_ticks_num st / 2) / frame_ticks_num st
    <= INT64_MAX ->
  pts_to_frame_number t st
  = (t * frame_ticks_den st + frame_ticks_num st / 2) / frame_ticks_num st.
Proof.
  intros Hus Ht Hfit. destruct (frame_ticks_bounds st Hus) as [Hb Hc].
  change (pts_to_frame_number t st)
    with (av_rescale_rnd t (frame_ticks_den st) (frame_ticks_num st)
            AV_ROUND_NEAR_INF).
  apply av_rescale_rnd_near; try assumption; lia.
Qed.

Lemma round_near_le x y b c :
  0 < c -> x <= y -> 0 <= b -> (x * b + c / 2) / c <= (y * b + c / 2) / c.
Proof.
  intros Hc Hxy Hb. apply Z.div_le_mono; [lia|].
  assert (x * b <= y * b) by (apply Z.mul_le_mono_nonneg_r; lia). lia.
Qed.

(** On a fine time base a timestamp's frame number fits in 64 bits. *)
Lemma frames_fit_fine t b c :
  0 < c <= b -> 0 <= t -> (t * c + b / 2) / b <= t.
Proof.
  intros Hcb Ht.
  assert (Hle : t * c <= t * b) by (apply Z.mul_le_mono_nonneg_l; lia).
  assert (Hb2 : b / 2 < b) by (apply Z.div_lt_upper_bound; lia).
  assert (Hb0 : 0 <= b / 2) by (apply Z.div_pos; lia).
  apply Z.lt_succ_r. apply Z.div_lt_upper_bound; [lia|]. nia.
Qed.

(** X13.  A frame number's timestamp is the multiple of the time base
    nearest to the frame's exact time, a tie going to the later tick:
    twice its distance from the exact time is at most one tick. *)
Theorem timestamp_is_nearest_tick st n :
  usable_stream st -> 0 <= n <= INT64_MAX ->
  (n * frame_ticks_num st + frame_ticks_den st / 2) / frame_ticks_den st
    <= INT64_MAX ->
  - frame_ticks_den st
    < 2 * (frame_number_to_stream_ts n st * frame_ticks_den st
           - n * frame_ticks_num st)
    <= frame_ticks_den st.
Proof.
  intros Hus Hn Hfit. destruct (frame_ticks_bounds st Hus) as [Hb Hc].
  rewrite (frame_number_to_stream_ts_closed st n Hus Hn Hfit).
  set (b := frame_ticks_num st) in *. set (c := frame_ticks_den st) in *.
  clearbody b c.
  pose proof (Z.div_mod (n * b + c / 2) c ltac:(lia)) as E.
  pose proof (Z.mod_pos_bound (n * b + c / 2) c ltac:(lia)) as B.
  pose proof (Z.div_mod c 2 ltac:(lia)) as Ec.
  pose proof (Z.mod_pos_bound c 2 ltac:(lia)) as Bc.
  set (q := (n * b + c / 2) / c) in *. clearbody q. lia.
Qed.

Lemma timestamp_is_nearest_tick_witness :
  - frame_ticks_den stream_25_90k
    < 2 * (frame_number_to_stream_ts 5 stream_25_90k
             * frame_ticks_den stream_25_90k
           - 5 * frame_ticks_num stream_25_90k)
    <= frame_ticks_den stream_25_90k.
Proof.
  apply (timestamp_is_nearest_tick stream_25_90k 5);
    unfold usable_stream; cbn; unfold INT_MAX, INT64_MAX; lia.
Defined.

(** X14.  A timestamp that lies less than half a frame duration from the
    exact time of frame [n] is given the frame number [n]. *)
Theorem timestamp_near_frame_maps_to_it st t n :
  usable_stream st -> 0 <= t <= INT64_MAX -> 0 <= n <= INT64_MAX ->
  2 * Z.abs (t * frame_ticks_den st - n * frame_ticks_num st)
    < frame_ticks_num st ->
  pts_to_frame_number t st = n.
Proof.
  intros Hus Ht Hn Hnear. destruct (frame_ticks_bounds st Hus) as [Hb Hc].
  set (b := frame_ticks_num st) in *. set (c := frame_ticks_den st) in *.
  assert (Hq : (t * c + b / 2) / b = n).
  { symmetry. apply (Z.div_unique _ _ _ (t * c + b / 2 - n * b)).
    - left.
      pose proof (Z.div_mod b 2 ltac:(lia)) as Eb.
      pose proof (Z.mod_pos_bound b 2 ltac:(lia)) as Bb. lia.
    - lia. }
  subst b c. rewrite pts_to_frame_number_closed; try assumption; lia.
Qed.

Lemma timestamp_near_frame_maps_to_it_witness :
  pts_to_frame_number 18900 stream_25_90k = 5.
Proof.
  apply (timestamp_near_frame_maps_to_it stream_25_90k 18900 5);
    unfold usable_stream; cbn; unfold INT_MAX, INT64_MAX; lia.
Defined.

(** X15.  Both conversions are monotone on the values that fit: a later
    frame number never gets an earlier timestamp, and a later timestamp
    never gets an earlier frame number. *)
Theorem conversions_monotone st x y :
  usable_stream st -> 0 <= x <= y -> y <= INT64_MAX ->
  (y * frame_ticks_num st + frame_ticks_den st / 2) / frame_ticks_den st
    <= INT64_MAX ->
  (y * frame_ticks_den st + frame_ticks_num st / 2) / frame_ticks_num st
    <= INT64_MAX ->
  frame_number_to_stream_ts x st <= frame_number_to_stream_ts y st /\
  pts_to_frame_number x st <= pts_to_frame_number y st.
Proof.
  intros Hus Hxy Hy Hfit1 Hfit2.
  destruct (frame_ticks_bounds st Hus) as [Hb Hc].
  pose proof (round_near_le x y (frame_ticks_num st) (frame_ticks_den st)
                ltac:(lia) ltac:(lia) ltac:(lia)) as H1.
  pose proof (round_near_le x y (frame_ticks_den st) (frame_ticks_num st)
                ltac:(lia) ltac:(lia) ltac:(lia)) as H2.
  rewrite (frame_number_to_stream_ts_closed st x),
    (frame_number_to_stream_ts_closed st y),
    (pts_to_frame_number_closed st x), (pts_to_frame_number_closed st y);
    try assumption; try lia.
Qed.

Lemma conversions_monotone_witness :
  frame_number_to_stream_ts 4 stream_25_90k
    <= frame_number_to_stream_ts 5 stream_25_90k /\
  pts_to_frame_number 4 stream_25_90k <= pts_to_frame_number 5 stream_25_90k.
Proof.
  apply (conversions_monotone stream_25_90k 4 5);
    unfold usable_stream; cbn; unfold INT_MAX, INT64_MAX; lia.
Defined.

(** X16.  When the product of the time base's numerator and the effective
    rate's numerator is not positive (a time base of 0/1, a negative
    rate), every frame number's timestamp is [AV_NOPTS_VALUE]; a seek then
    stops at the first frame the decoder yields, whatever the target: it
    records that frame's timestamp and returns what [av_frame_clone] made
    of the frame. *)
Theorem unusable_time_base_target p st n seek_ret input clone_ok frame rest :
  video_stream p = Some st -> fmt_ctx p = true -> dec_ctx p = true ->
  frame_ticks_den st <= 0 ->
  0 <= seek_ret ->
  yielded p input = frame :: rest ->
  INT64_MIN <= effective_pts p frame ->
  frame_number_to_stream_ts n st = AV_NOPTS_VALUE /\
  seek_and_decode_frame p n seek_ret input clone_ok
  = (if clone_ok then Some frame else None,
     set_last_shown_pts p (effective_pts p frame)).
Proof.
  intros Hst Hfmt Hdec Hden Hret Hy Hpts.
  assert (Hts : frame_number_to_stream_ts n st = AV_NOPTS_VALUE).
  { change (frame_number_to_stream_ts n st)
      with (av_rescale_rnd n (frame_ticks_num st) (frame_ticks_den st)
              AV_ROUND_NEAR_INF).
    unfold av_rescale_rnd, av_rescale_rnd_body at 1.
    destruct (Z.leb_spec (frame_ticks_den st) 0); [reflexivity | lia]. }
  split; [exact Hts|].
  unfold seek_and_decode_frame. rewrite Hst, Hfmt, Hdec. cbn [negb orb].
  destruct (Z.ltb_spec seek_ret 0); [lia|].
  rewrite seek_read_loop_find, Hts, Hy. unfold first_at_or_after.
  cbn [find].
  destruct (Z.geb_spec (effective_pts p frame) AV_NOPTS_VALUE) as [|Hlt];
    [reflexivity|].
  unfold AV_NOPTS_VALUE in Hlt. lia.
Qed.

Lemma unusable_time_base_target_witness :
  frame_number_to_stream_ts 100 stream_no_time_base = AV_NOPTS_VALUE /\
  seek_and_decode_frame (opened_player stream_no_time_base 0) 100 0
    [mkRead 0 0 [RecvFrame (frame_at 7)]] true
  = (Some (frame_at 7), opened_player stream_no_time_base 7).
Proof.
  apply (unusable_time_base_target (opened_player stream_no_time_base 0)
           stream_no_time_base 100 0 [mkRead 0 0 [RecvFrame (frame_at 7)]]
           true (frame_at 7) []);
    try reflexivity; cbn; unfold INT64_MIN; lia.
Defined.

(** ** Seeking and stepping by frame number *)

Lemma seek_delivered_ge_target p st n seek_ret input clone_ok frame p' :
  video_stream p = Some st ->
  seek_and_decode_frame p n seek_ret input clone_ok = (Some frame, p') ->
  frame_number_to_stream_ts n st <= last_shown_pts p'.
Proof.
  intros Hst Hseek. unfold seek_and_decode_frame in Hseek.
  rewrite Hst in Hseek.
  destruct (negb (fmt_ctx p) || negb (dec_ctx p)); [discriminate|].
  destruct (seek_ret <? 0); [discriminate|].
  rewrite seek_read_loop_find in Hseek. unfold first_at_or_after in Hseek.
  destruct (find _ (yielded p input)) as [f|] eqn:Hfind; [|discriminate].
  destruct clone_ok; cbn [av_frame_clone] in Hseek; [|discriminate].
  injection Hseek as -> <-.
  destruct (find_split _ _ _ Hfind) as (_ & _ & _ & Hge & _).
  cbn [set_last_shown_pts last_shown_pts]. lia.
Qed.

(** A timestamp at or after that of frame [n] has a frame number of at
    least [n], when a frame lasts at least one tick. *)
Lemma frame_of_later_timestamp st n t :
  usable_stream st -> frame_ticks_den st <= frame_ticks_num st ->
  0 <= n <= INT64_MAX ->
  (n * frame_ticks_num st + frame_ticks_den st / 2) / frame_ticks_den st
    <= INT64_MAX ->
  frame_number_to_stream_ts n st <= t <= INT64_MAX ->
  n <= pts_to_frame_number t st.
Proof.
  intros Hus Hfine Hn Hfit Ht.
  destruct (frame_ticks_bounds st Hus) as [Hb Hc].
  rewrite (frame_number_to_stream_ts_closed st n Hus Hn Hfit) in Ht.
  set (b := frame_ticks_num st) in *. set (c := frame_ticks_den st) in *.
  assert (Hnb : 0 <= n * b) by (apply Z.mul_nonneg_nonneg; lia).
  assert (Hc2 : 0 <= c / 2) by (apply Z.div_pos; lia).
  assert (Hts0 : 0 <= (n * b + c / 2) / c) by (apply Z.div_pos; lia).
  set (ts := (n * b + c / 2) / c) in *.
  assert (Hback : (ts * c + b / 2) / b = n) by (apply round_trip_math; lia).
  pose proof (round_near_le ts t c b ltac:(lia) ltac:(lia) ltac:(lia)) as Hm.
  pose proof (frames_fit_fine t b c ltac:(lia) ltac:(lia)) as Hft.
  subst b c.
  rewrite pts_to_frame_number_closed; try assumption; lia.
Qed.

(** X17.  On a usable stream whose frames last at least one tick of the
    time base, a seek for frame [n] that returns a frame leaves a
    [last_shown_pts] whose frame number is [n] or later: the scan never
    stops short of the requested frame. *)
Theorem seek_never_stops_short p st n seek_ret input clone_ok frame p' :
  video_stream p = Some st ->
  usable_stream st -> frame_ticks_den st <= frame_ticks_num st ->
  0 <= n <= INT64_MAX ->
  (n * frame_ticks_num st + frame_ticks_den st / 2) / frame_ticks_den st
    <= INT64_MAX ->
  seek_and_decode_frame p n seek_ret input clone_ok = (Some frame, p') ->
  last_shown_pts p' <= INT64_MAX ->
  n <= pts_to_frame_number (last_shown_pts p') st.
Proof.
  intros Hst Hus Hfine Hn Hfit Hseek Hmax.
  pose proof (seek_delivered_ge_target _ _ _ _ _ _ _ _ Hst Hseek) as Hge.
  apply frame_of_later_timestamp; try assumption. lia.
Qed.

Lemma seek_never_stops_short_witness :
  5 <= pts_to_frame_number
         (last_shown_pts (opened_player stream_25_90k 18000)) stream_25_90k.
Proof.
  apply (seek_never_stops_short (opened_player stream_25_90k 0)
           stream_25_90k 5 0 scan_to_frame5 true (frame_at 18000)
           (opened_player stream_25_90k 18000));
    try reflexivity;
    unfold usable_stream; cbn; unfold INT_MAX, INT64_MAX; lia.
Defined.

(** X18.  StepForward advances: on a usable stream whose frames last at
    least one tick, when the key 'n' (or the arrow code 83) makes the loop
    show a frame, the new [current_frame] is greater than the old one. *)
Theorem step_forward_advances s ev s' st :
  video_stream (player s) = Some st ->
  usable_stream st -> frame_ticks_den st <= frame_ticks_num st ->
  0 <= current_frame s < INT64_MAX ->
  ((current_frame s + 1) * frame_ticks_num st + frame_ticks_den st / 2)
    / frame_ticks_den st <= INT64_MAX ->
  Z.land (key ev) 255 = 110 \/ key ev = 83 ->
  loop_iteration s ev = Some s' ->
  shown s' <> shown s ->
  last_shown_pts (player s') <= INT64_MAX ->
  current_frame s < current_frame s'.
Proof.
  intros Hst Hus Hfine Hcf Hfit Hkey Hstep Hshown Hmax.
  assert (Hb : (key ev =? -1) = false /\ (key ev =? 27) = false /\
               (Z.land (key ev) 255 =? 113) = false /\
               (Z.land (key ev) 255 =? 32) = false /\
               (Z.land (key ev) 255 =? 110) || (key ev =? 83) = true).
  { destruct Hkey as [H|H].
    - rewrite H. repeat split; try reflexivity;
        apply Z.eqb_neq; intros E; rewrite E in H; vm_compute in H;
        discriminate.
    - rewrite H. repeat split. }
  destruct Hb as (H1 & H2 & H3 & H4 & H5).
  unfold loop_iteration in Hstep.
  rewrite H1, H2, H3 in Hstep. cbn [andb orb] in Hstep. cbv zeta in Hstep.
  rewrite H4, H5 in Hstep.
  assert (Htarget : s64 (current_frame s + 1) = current_frame s + 1)
    by (apply s64_small; unfold INT64_MAX in Hcf; lia).
  rewrite Htarget in Hstep.
  pose proof (seek_and_decode_frame_delivery (player s)
                (current_frame s + 1) (seek_ret ev) (input ev) (clone_ok ev))
    as Hd.
  destruct (seek_and_decode_frame (player s) (current_frame s + 1)
              (seek_ret ev) (input ev) (clone_ok ev)) as [[nf|] p] eqn:Hseek.
  - destruct (delivery_some _ _ _ _ Hd) as [_ Hd'']. clear Hd.
    rename Hd'' into Hd.
    destruct (show_frame_inv _ _ _ _ _ _ Hstep)
      as (img & p2 & st2 & Hconv & Hst2 & ->).
    cbn [current_frame player] in *.
    destruct (avframe_to_cvmat_inv _ _ _ _ _ Hconv) as (Hp2 & _ & _).
    assert (Hv : video_stream p2 = Some st).
    { rewrite Hp2, (proj2 (sws_refresh_keeps _ _ _)), Hd. exact Hst. }
    rewrite Hv in Hst2. injection Hst2 as <-.
    assert (Hl : last_shown_pts p2 = last_shown_pts p)
      by (rewrite Hp2; apply (proj1 (sws_refresh_keeps _ _ _))).
    pose proof (seek_delivered_ge_target _ _ _ _ _ _ _ _ Hst Hseek) as Hge.
    assert (Hn : current_frame s + 1
                 <= pts_to_frame_number (last_shown_pts p2) st).
    { apply frame_of_later_timestamp; try assumption;
        unfold INT64_MAX in *; lia. }
    lia.
  - injection Hstep as <-. exfalso. apply Hshown. reflexivity.
Qed.

Lemma step_forward_advances_witness :
  current_frame sample_opened < current_frame sample_stepped.
Proof.
  apply (step_forward_advances sample_opened step_forward_event
           sample_stepped stream_25_90k);
    try reflexivity;
    try (unfold usable_stream; cbn; unfold INT_MAX, INT64_MAX; lia).
  intros H. vm_compute in H. discriminate H.
Defined.

(** X19.  StepBackward does not overshoot: on a usable stream whose frames
    last at least one tick, when the key 'b' (or the arrow code 81) makes
    the loop show a frame, the new [current_frame] is at least the frame
    before the old one, and at least 0. *)
Theorem step_backward_stays_close s ev s' st :
  video_stream (player s) = Some st ->
  usable_stream st -> frame_ticks_den st <= frame_ticks_num st ->
  current_frame s <= INT64_MAX ->
  (Z.max (current_frame s - 1) 0 * frame_ticks_num st
   + frame_ticks_den st / 2) / frame_ticks_den st <= INT64_MAX ->
  Z.land (key ev) 255 = 98 \/ key ev = 81 ->
  loop_iteration s ev = Some s' ->
  shown s' <> shown s ->
  last_shown_pts (player s') <= INT64_MAX ->
  Z.max (current_frame s - 1) 0 <= current_frame s'.
Proof.
  intros Hst Hus Hfine Hcf Hfit Hkey Hstep Hshown Hmax.
  assert (Hb : (key ev =? -1) = false /\ (key ev =? 27) = false /\
               (Z.land (key ev) 255 =? 113) = false /\
               (Z.land (key ev) 255 =? 32) = false /\
               (Z.land (key ev) 255 =? 110) = false /\
               (key ev =? 83) = false /\
               (Z.land (key ev) 255 =? 98) || (key ev =? 81) = true).
  { destruct Hkey as [H|H].
    - rewrite H. repeat split; try reflexivity;
        apply Z.eqb_neq; intros E; rewrite E in H; vm_compute in H;
        discriminate.
    - rewrite H. repeat split. }
  destruct Hb as (H1 & H2 & H3 & H4 & H5 & H6 & H7).
  unfold loop_iteration in Hstep.
  rewrite H1, H2, H3 in Hstep. cbn [andb orb] in Hstep. cbv zeta in Hstep.
  rewrite H4, H5, H6 in Hstep. cbn [orb] in Hstep. rewrite H7 in Hstep.
  assert (Htarget : (if current_frame s >? 0 then current_frame s - 1 else 0)
                    = Z.max (current_frame s - 1) 0).
  { destruct (Z.gtb_spec (current_frame s) 0); lia. }
  rewrite Htarget in Hstep.
  set (target := Z.max (current_frame s - 1) 0) in *.
  pose proof (seek_and_decode_frame_delivery (player s) target
                (seek_ret ev) (input ev) (clone_ok ev)) as Hd.
  destruct (seek_and_decode_frame (player s) target
              (seek_ret ev) (input ev) (clone_ok ev)) as [[bf|] p] eqn:Hseek.
  - destruct (delivery_some _ _ _ _ Hd) as [_ Hd'']. clear Hd.
    rename Hd'' into Hd.
    destruct (show_frame_inv _ _ _ _ _ _ Hstep)
      as (img & p2 & st2 & Hconv & Hst2 & ->).
    cbn [current_frame player] in *.
    destruct (avframe_to_cvmat_inv _ _ _ _ _ Hconv) as (Hp2 & _ & _).
    assert (Hv : video_stream p2 = Some st).
    { rewrite Hp2, (proj2 (sws_refresh_keeps _ _ _)), Hd. exact Hst. }
    rewrite Hv in Hst2. injection Hst2 as <-.
    assert (Hl : last_shown_pts p2 = last_shown_pts p)
      by (rewrite Hp2; apply (proj1 (sws_refresh_keeps _ _ _))).
    pose proof (seek_delivered_ge_target _ _ _ _ _ _ _ _ Hst Hseek) as Hge.
    apply frame_of_later_timestamp; try assumption;
      unfold INT64_MAX in *; subst target; lia.
  - injection Hstep as <-. exfalso. apply Hshown. reflexivity.
Qed.

Lemma step_backward_stays_close_witness :
  Z.max (current_frame sample_stepped - 1) 0 <= current_frame sample_back.
Proof.
  apply (step_backward_stays_close sample_stepped step_backward_event
           sample_back stream_25_90k);
    try reflexivity;
    try (unfold usable_stream; cbn; unfold INT_MAX, INT64_MAX; lia).
  intros H. vm_compute in H. discriminate H.
Defined.

(** X20.  A playing tick on which the decoder yields no frame pauses
    playback and changes nothing else: playback stops at the end of the
    stream and does not start over. *)
Theorem end_of_stream_pauses s ev :
  playing s = true -> key ev = -1 ->
  yielded (player s) (input ev) = [] ->
  loop_iteration s ev
  = Some {| player := player s; current_frame := current_frame s;
            playing := false; should_quit := should_quit s;
            shown := shown s |}.
Proof.
  intros Hplay Hkey Hnone. unfold loop_iteration.
  rewrite Hkey, Hplay. cbn [Z.eqb andb].
  change ((-1 =? -1)) with true. cbn [andb].
  unfold decode_next_frame.
  destruct (negb (fmt_ctx (player s)) || negb (dec_ctx (player s)));
    [reflexivity|].
  rewrite next_read_loop_head, Hnone. reflexivity.
Qed.

Lemma end_of_stream_pauses_witness :
  loop_iteration sample_playing (mkEvent (-1) 0 [] true true)
  = Some {| player := player sample_playing;
            current_frame := current_frame sample_playing;
            playing := false; should_quit := should_quit sample_playing;
            shown := shown sample_playing |}.
Proof.
  apply (end_of_stream_pauses sample_playing (mkEvent (-1) 0 [] true true));
    reflexivity.
Defined.

(** X21.  TogglePlayPause is its own inverse: two presses of a key whose
    low byte is the space character bring the state back, and neither
    calls a decoder. *)
Theorem toggle_twice_restores s ev1 ev2 :
  Z.land (key ev1) 255 = 32 -> Z.land (key ev2) 255 = 32 ->
  should_quit s = false ->
  run_loop s [ev1; ev2] = Some s.
Proof.
  intros H1 H2 Hq.
  assert (Hb : forall ev, Z.land (key ev) 255 = 32 ->
            forall t, loop_iteration t ev
                      = Some (with_player t (player t) (negb (playing t)))).
  { intros ev H t.
    assert (Hn1 : (key ev =? -1) = false)
      by (apply Z.eqb_neq; intros E; rewrite E in H; vm_compute in H;
          discriminate).
    assert (Hn2 : (key ev =? 27) = false)
      by (apply Z.eqb_neq; intros E; rewrite E in H; vm_compute in H;
          discriminate).
    unfold loop_iteration. rewrite Hn1, Hn2, H. reflexivity. }
  cbn [run_loop]. rewrite Hq, (Hb ev1 H1 s).
  cbn [with_player should_quit]. rewrite Hq, (Hb ev2 H2).
  cbn [with_player player playing current_frame should_quit shown].
  rewrite negb_involutive. destruct s; reflexivity.
Qed.

Lemma toggle_twice_restores_witness :
  run_loop sample_opened
    [with_key step_forward_event 32; with_key step_forward_event 32]
  = Some sample_opened.
Proof.
  apply (toggle_twice_restores sample_opened
           (with_key step_forward_event 32) (with_key step_forward_event 32));
    reflexivity.
Defined.
